(** * p42r: the message intake and command dispatch pipeline

    A shallow embedding of [src/core/command_router.py],
    [src/adapters/base_adapter.py], [src/adapters/telegram_adapter.py],
    [src/backend/security_manager.py] and [src/backend/process_manager.py],
    with the properties of the pipeline stated over it.

    Layout: Python values and exceptions, the string builtins the code
    uses, the router ([CommandRouter]), the adapter contract ([BaseAdapter])
    and its Telegram instance, the two managers; the theorems follow the
    definitions. *)

From Stdlib Require Import ZArith Ascii String.
From stdpp Require Import gmap strings list fin_maps pretty sorting.

Local Open Scope string_scope.
Local Open Scope Z_scope.

(** ** Python values, exceptions and outcomes *)

(** The scalar values that occur in the dictionaries of the pipeline. *)
Inductive pyval :=
  | PNone
  | PBool (b : bool)
  | PInt (n : Z)
  | PStr (s : string).

Global Instance pyval_eq_dec : EqDecision pyval.
Proof. solve_decision. Defined.

(** [str(v)]. *)
Definition py_str (v : pyval) : string :=
  match v with
  | PNone => "None"
  | PBool true => "True"
  | PBool false => "False"
  | PInt n => pretty n
  | PStr s => s
  end.

(** The exceptions of the model.  The first group derives from
    [Exception]; the second group derives from [BaseException] only
    ([sys.exit] raises [SystemExit], as [SystemManager.shutdown_system]
    does; cancelling an awaiting task raises [CancelledError]).  A
    [KeyError] carries its key and an [OSError] its number, its text and
    the file name: their messages are formatted when they are printed. *)
Inductive exn :=
  | ValueError (msg : string)
  | KeyError (key : string)
  | IndexError (msg : string)
  | AttributeError (msg : string)
  | OSError (errno : Z) (strerror filename : string)
  | RuntimeError (msg : string)
  | SystemExit (code : Z)
  | KeyboardInterrupt
  | CancelledError.

(** [isinstance(e, Exception)]: what an [except Exception] clause catches. *)
Definition is_Exception (e : exn) : bool :=
  match e with
  | SystemExit _ | KeyboardInterrupt | CancelledError => false
  | _ => true
  end.

(** A call either returns or raises. *)
Inductive outcome (A : Type) :=
  | Returns (a : A)
  | Raises (e : exn).
Arguments Returns {A} a.
Arguments Raises {A} e.

Global Instance outcome_ret : MRet outcome := λ A a, Returns a.
Global Instance outcome_fmap : FMap outcome := λ A B f m,
  match m with
  | Returns a => Returns (f a)
  | Raises e => Raises e
  end.
Global Instance outcome_bind : MBind outcome := λ A B f m,
  match m with
  | Returns a => f a
  | Raises e => Raises e
  end.

(** ** String builtins *)

Module PyStr.

(** A text is the string of the bytes of its UTF-8 encoding: a character
    is one byte below 128, or a leading byte followed by one to three
    continuation bytes.  The builtins that depend on nothing but the set
    of white-space characters, which is small and fixed, are defined here
    on that encoding; those that depend on the tables of the Unicode
    database of the interpreter ([lower], [int], [repr]) are the fields of
    a [Runtime], given further down with what is known of them. *)

(** The value of a byte. *)
Definition byte (c : ascii) : N := N_of_ascii c.

(** A byte that continues a character: [10xxxxxx]. *)
Definition is_cont (c : ascii) : bool := ((128 <=? byte c) && (byte c <? 192))%N.

(** The white-space characters of [str.strip], [str.split] and
    [str.isspace], by their encodings.  One byte: U+0009 to U+000D,
    U+001C to U+001F and U+0020. *)
Definition ascii_space (c : ascii) : bool :=
  let n := byte c in
  ((9 <=? n) && (n <=? 13) || (28 <=? n) && (n <=? 32))%N.

(** Two bytes: U+0085 ([C2 85]) and U+00A0 ([C2 A0]). *)
Definition two_byte_space (c1 c2 : ascii) : bool :=
  ((byte c1 =? 194) && ((byte c2 =? 133) || (byte c2 =? 160)))%N.

(** Three bytes: U+1680 ([E1 9A 80]); U+2000 to U+200A ([E2 80 80] to
    [E2 80 8A]), U+2028, U+2029 and U+202F ([E2 80 A8], [E2 80 A9],
    [E2 80 AF]); U+205F ([E2 81 9F]); U+3000 ([E3 80 80]). *)
Definition three_byte_space (c1 c2 c3 : ascii) : bool :=
  let n1 := byte c1 in
  let n2 := byte c2 in
  let n3 := byte c3 in
  ((n1 =? 225) && (n2 =? 154) && (n3 =? 128)
   || (n1 =? 226) && (n2 =? 128)
      && ((128 <=? n3) && (n3 <=? 138) || (n3 =? 168) || (n3 =? 169) || (n3 =? 175))
   || (n1 =? 226) && (n2 =? 129) && (n3 =? 159)
   || (n1 =? 227) && (n2 =? 128) && (n3 =? 128))%N.

(** [space_width s]: the number of bytes of the white-space character at
    the head of [s], and [0] when [s] does not start with one. *)
Definition space_width (s : string) : nat :=
  match s with
  | EmptyString => 0
  | String c1 s1 =>
      if ascii_space c1 then 1
      else
        match s1 with
        | EmptyString => 0
        | String c2 s2 =>
            if two_byte_space c1 c2 then 2
            else
              match s2 with
              | EmptyString => 0
              | String c3 _ => if three_byte_space c1 c2 c3 then 3 else 0
              end
        end
  end%nat.

(** [starts_break s]: [s] is empty or starts with a space. *)
Definition starts_break (s : string) : bool :=
  match s with
  | EmptyString => true
  | _ => negb (Nat.eqb (space_width s) 0)
  end.

(** [s.lstrip()], after the [k] bytes that remain of the space being
    dropped. *)
Fixpoint lskip (k : nat) (s : string) : string :=
  match s with
  | EmptyString => EmptyString
  | String c s' =>
      match k with
      | S k' => lskip k' s'
      | O =>
          match space_width s with
          | S k' => lskip k' s'
          | O => s
          end
      end
  end.

(** [s.lstrip()] *)
Definition lstrip (s : string) : string := lskip 0 s.

(** [spaces_from k s]: after its first [k] bytes, [s] is made of spaces. *)
Fixpoint spaces_from (k : nat) (s : string) : bool :=
  match s with
  | EmptyString => true
  | String c s' =>
      match k with
      | S k' => spaces_from k' s'
      | O =>
          match space_width s with
          | S k' => spaces_from k' s'
          | O => false
          end
      end
  end.

(** [all_space s]: every character of [s] is a space. *)
Definition all_space (s : string) : bool := spaces_from 0 s.

(** [s.rstrip()]: [s] up to the point from which only spaces follow. *)
Fixpoint rstrip (s : string) : string :=
  match s with
  | EmptyString => EmptyString
  | String c s' => if all_space s then EmptyString else String c (rstrip s')
  end.

(** [s.strip()] *)
Definition strip (s : string) : string := lstrip (rstrip s).

(** The tokens of [s] after its first [k] bytes, which remain of a space. *)
Fixpoint tokens (k : nat) (s : string) : list string :=
  match s with
  | EmptyString => []
  | String c s' =>
      match k with
      | S k' => tokens k' s'
      | O =>
          match space_width s with
          | S k' => tokens k' s'
          | O =>
              if starts_break s' then String c EmptyString :: tokens 0 s'
              else match tokens 0 s' with
                   | t :: ts => String c t :: ts
                   | [] => [String c EmptyString]
                   end
          end
      end
  end.

(** [s.split()]: the maximal runs of characters that are not spaces. *)
Definition split (s : string) : list string := tokens 0 s.

(** [sep.join(l)] *)
Definition join (sep : string) (l : list string) : string := String.concat sep l.

(** [sub in s] *)
Fixpoint contains (sub s : string) : bool :=
  String.prefix sub s ||
  match s with
  | EmptyString => false
  | String _ s' => contains sub s'
  end.

(** [len(s)]: the number of characters, that is of the bytes that do not
    continue one. *)
Fixpoint len (s : string) : nat :=
  match s with
  | EmptyString => 0
  | String c s' => ((if is_cont c then 0 else 1) + len s')%nat
  end.

(** [s[:n]]: the first [n] characters, each with its continuation bytes. *)
Fixpoint take (n : nat) (s : string) : string :=
  match s with
  | EmptyString => EmptyString
  | String c s' =>
      if is_cont c then String c (take n s')
      else match n with
           | O => EmptyString
           | S n' => String c (take n' s')
           end
  end.

(** [space_free s]: no character of [s] is a space. *)
Fixpoint space_free (s : string) : bool :=
  match s with
  | EmptyString => true
  | String c s' => Nat.eqb (space_width s) 0 && space_free s'
  end.

(** [ends_ok s]: [s] is empty or its last character is not a space: no
    end of [s] but the empty one is made of spaces. *)
Fixpoint ends_ok (s : string) : bool :=
  match s with
  | EmptyString => true
  | String c s' => negb (all_space s) && ends_ok s'
  end.

(** [starts_clean s]: [s] is empty or starts at the first byte of a
    character. *)
Definition starts_clean (s : string) : bool :=
  match s with
  | EmptyString => true
  | String c _ => negb (is_cont c)
  end.

(** [conts k s]: the first [k] bytes of [s] are continuation bytes. *)
Fixpoint conts (k : nat) (s : string) : bool :=
  match k with
  | O => true
  | S k' =>
      match s with
      | EmptyString => false
      | String c s' => is_cont c && conts k' s'
      end
  end.

(** [s.isascii()]: every byte of [s] is below 128. *)
Fixpoint is_ascii (s : string) : bool :=
  match s with
  | EmptyString => true
  | String c s' => (byte c <? 128)%N && is_ascii s'
  end.

(** *** The builtins on ASCII text *)

Definition lower_char (c : ascii) : ascii :=
  let n := N_of_ascii c in
  if ((65 <=? n) && (n <=? 90))%N then ascii_of_N (n + 32) else c.

(** [s.lower()] for an ASCII [s]: the letters [A] to [Z] are moved to [a]
    to [z]. *)
Fixpoint ascii_lower (s : string) : string :=
  match s with
  | EmptyString => EmptyString
  | String c s' => String (lower_char c) (ascii_lower s')
  end.

Definition is_digit (c : ascii) : bool :=
  let n := N_of_ascii c in ((48 <=? n) && (n <=? 57))%N.

Definition digit_val (c : ascii) : Z := Z.of_N (N_of_ascii c) - 48.

(** The digits of a base-10 literal: decimal digits, with single
    underscores allowed between two digits. *)
Fixpoint int_digits (acc : Z) (after_digit : bool) (s : string) : option Z :=
  match s with
  | EmptyString => if after_digit then Some acc else None
  | String c s' =>
      if is_digit c then int_digits (10 * acc + digit_val c) true s'
      else if Ascii.eqb c "_" then
        (if after_digit then int_digits acc false s' else None)
      else None
  end.

(** The value of an ASCII literal with no space around it: an optional
    sign and the digits. *)
Definition parse_int (s : string) : option Z :=
  match s with
  | String "+" s' => int_digits 0 false s'
  | String "-" s' => Z.opp <$> int_digits 0 false s'
  | _ => int_digits 0 false s
  end.

Definition hex_digit (n : N) : ascii :=
  if (n <? 10)%N then ascii_of_N (48 + n) else ascii_of_N (87 + n).

Definition repr_char (q c : ascii) : string :=
  let n := N_of_ascii c in
  if Ascii.eqb c "\" then "\\"
  else if Ascii.eqb c q then String "\" (String q EmptyString)
  else if Ascii.eqb c "010" then "\n"
  else if Ascii.eqb c "013" then "\r"
  else if Ascii.eqb c "009" then "\t"
  else if ((n <? 32) || (n =? 127))%N then
    String "\" (String "x" (String (hex_digit (n / 16)) (String (hex_digit (n mod 16)) EmptyString)))
  else String c EmptyString.

Fixpoint repr_body (q : ascii) (s : string) : string :=
  match s with
  | EmptyString => EmptyString
  | String c s' => repr_char q c +:+ repr_body q s'
  end.

Definition has_char (c : ascii) (s : string) : bool :=
  contains (String c EmptyString) s.

(** [repr(s)] for an ASCII [s]: single quotes, unless the text has a
    single quote and no double quote; the control characters escaped. *)
Definition ascii_repr (s : string) : string :=
  let q := if has_char "'" s && negb (has_char "034" s) then "034"%char else "'"%char in
  String q (repr_body q s +:+ String q EmptyString).

(** [int(s)] for an ASCII [s] with no space around it. *)
Definition ascii_int (s : string) : outcome Z :=
  match parse_int s with
  | Some n => Returns n
  | None =>
      Raises (ValueError ("invalid literal for int() with base 10: " +:+ ascii_repr s))
  end.

(** *** The builtins that read the Unicode database

    [str.lower], [int] and [repr] depend on the tables of the interpreter
    that runs the code (which characters are letters and what their lower
    case is, which are decimal digits, which are printable) and, for
    [int], on its limit on the number of digits.  A [Runtime] is any
    choice of the three that behaves as Python does where no table is
    involved:
    - on ASCII text they are the functions above ([int] for a token of at
      most 40 characters: the message of its [ValueError] shows at most
      200 characters of the literal, and the digit limit starts above
      640);
    - lowering deletes no character, changes nothing in a text that is
      already lowered, and makes no space;
    - [int] of a string raises nothing but [ValueError].
    Every theorem below that depends on these builtins is proved for an
    arbitrary [Runtime], so for the interpreter's. *)
Class Runtime := {
  (** [s.lower()] *)
  lower : string → string;
  (** [repr(s)] *)
  repr : string → string;
  (** [int(s)] *)
  int : string → outcome Z;
  lower_ascii s : is_ascii s = true → lower s = ascii_lower s;
  lower_empty s : lower s = EmptyString → s = EmptyString;
  lower_lower s : lower (lower s) = lower s;
  lower_space_free s : space_free s = true → space_free (lower s) = true;
  repr_ascii s : is_ascii s = true → repr s = ascii_repr s;
  int_ascii s :
    is_ascii s = true → space_free s = true → (String.length s ≤ 40)%nat →
    int s = ascii_int s;
  int_raises s e : int s = Raises e → ∃ m, e = ValueError m;
}.

End PyStr.

(** [str(e)] *)
Definition exn_str `{!PyStr.Runtime} (e : exn) : string :=
  match e with
  | ValueError m | IndexError m | AttributeError m | RuntimeError m => m
  | KeyError k => PyStr.repr k
  | OSError errno strerror filename =>
      "[Errno " +:+ pretty errno +:+ "] " +:+ strerror +:+ ": " +:+ PyStr.repr filename
  | SystemExit c => pretty c
  | KeyboardInterrupt | CancelledError => EmptyString
  end.

(** [l[i]] *)
Definition getitem {A} (l : list A) (i : nat) : outcome A :=
  match l !! i with
  | Some x => Returns x
  | None => Raises (IndexError "list index out of range")
  end.

(** The runtime with no table beyond ASCII: its [lower], [int] and [repr]
    are the ASCII functions, on every text.  It runs the examples, whose
    texts are ASCII. *)
#[local] Obligation Tactic := idtac.
#[global] Program Instance ascii_runtime : PyStr.Runtime := {|
  PyStr.lower := PyStr.ascii_lower;
  PyStr.repr := PyStr.ascii_repr;
  PyStr.int := PyStr.ascii_int;
|}.
Next Obligation. done. Qed.
Next Obligation. by intros [|c s]. Qed.
Next Obligation.
  assert (∀ c, PyStr.lower_char (PyStr.lower_char c) = PyStr.lower_char c) as Hc
    by (by intros [[] [] [] [] [] [] [] []]).
  intros s. induction s as [|c s IH]; [done|]. cbn [PyStr.ascii_lower]. by rewrite Hc, IH.
Qed.
Next Obligation.
  assert (∀ c, PyStr.lower_char c = c ∨
               ((65 ≤ PyStr.byte c ≤ 90)%N ∧ (97 ≤ PyStr.byte (PyStr.lower_char c) ≤ 122)%N))
    as Hc.
  { intros [[] [] [] [] [] [] [] []]; (by left) || (right; vm_compute; intuition discriminate). }
  assert (∀ s, PyStr.space_width (PyStr.ascii_lower s) = PyStr.space_width s) as Hw.
  { intros [|c1 [|c2 [|c3 s]]]; [done|..]; cbn [PyStr.ascii_lower PyStr.space_width];
      unfold PyStr.ascii_space, PyStr.two_byte_space, PyStr.three_byte_space; cbn zeta;
      destruct (Hc c1) as [->|[? ?]]; try destruct (Hc c2) as [->|[? ?]];
      try destruct (Hc c3) as [->|[? ?]]; try done;
      repeat match goal with
        | |- context [(?a =? ?b)%N] =>
            first [ rewrite (proj2 (N.eqb_neq a b)) by lia ]
        | |- context [(?a <=? ?b)%N] =>
            first [ rewrite (proj2 (N.leb_le a b)) by lia
                  | rewrite (proj2 (N.leb_gt a b)) by lia ]
        end; cbn [andb orb]; try done. }
  intros s. induction s as [|c s IH]; [done|].
  intros [H1 H2]%andb_true_iff.
  change (PyStr.ascii_lower (String c s)) with (String (PyStr.lower_char c) (PyStr.ascii_lower s)).
  cbn [PyStr.space_free].
  change (String (PyStr.lower_char c) (PyStr.ascii_lower s)) with (PyStr.ascii_lower (String c s)).
  rewrite Hw, H1. by apply IH.
Qed.
Next Obligation. done. Qed.
Next Obligation. done. Qed.
Next Obligation.
  intros s e. unfold PyStr.ascii_int. destruct (PyStr.parse_int s); [done|].
  intros [= <-]. eauto.
Qed.

(** ** Data model *)

(** The message dictionary built by [extract_message_info] and passed on as
    the [context] of a command.  A field is [None] when the dictionary has
    no such key. *)
Record message_info := {
  chat_id : option pyval;
  user_id : option pyval;
  username : option pyval;
  text : option string;
  message_id : option Z;
  date : option Z;
  is_recent : option bool;
}.

Global Instance message_info_eq_dec : EqDecision message_info.
Proof. solve_decision. Defined.


(** [bool(info)]: a dictionary is true when it has a key. *)
Definition dict_truthy (info : message_info) : bool :=
  bool_decide (info ≠ {| chat_id := None; user_id := None; username := None;
                         text := None; message_id := None; date := None;
                         is_recent := None |}).

(** The values of an argument dictionary. *)
Inductive argval :=
  | ANone
  | AStr (s : string)
  | AInt (n : Z)
  | ACtx (info : message_info).

Global Instance argval_eq_dec : EqDecision argval.
Proof. solve_decision. Defined.

(** The response dictionary of a handler or of the router; a field is
    [None] when the dictionary has no such key. *)
Record response := {
  success : option bool;
  message : option string;
  handler : option string;
  data : option (gmap string pyval);
}.

Global Instance response_eq_dec : EqDecision response.
Proof. solve_decision. Defined.

(** What the router needs of a [BaseHandler]: its name, the commands it
    declares, and what [handle] returns or raises on a command and its
    arguments. *)
Record BaseHandler := {
  name : string;
  get_supported_commands : list string;
  handle : string → gmap string argval → outcome response;
}.

(** ** The command router *)

Module CommandRouter.

Record t := {
  handlers : gmap string BaseHandler;
  command_map : gmap string string;
}.

(** [CommandRouter()] *)
Definition init : t := {| handlers := ∅; command_map := ∅ |}.

Definition register_handler (h : BaseHandler) (self : t) : t :=
  let handler_name := name h in
  {| handlers := <[handler_name := h]> (handlers self);
     command_map :=
       foldl (λ m command, <[command := handler_name]> m)
             (command_map self) (get_supported_commands h) |}.

Definition unregister_handler (handler_name : string) (self : t) : bool * t :=
  match handlers self !! handler_name with
  | None => (false, self)
  | Some _ =>
      let commands_to_remove :=
        (filter (λ cm, cm.2 = handler_name) (map_to_list (command_map self))).*1 in
      (true,
       {| handlers := delete handler_name (handlers self);
          command_map :=
            foldl (λ m command, delete command m)
                  (command_map self) commands_to_remove |})
  end.

(** The loop [for i in range(1, len(parts)): args[f'arg{i}'] = parts[i]],
    started at index [i] on the tokens from that index on. *)
Fixpoint generic_args (i : nat) (rest : list string)
    (args : gmap string argval) : gmap string argval :=
  match rest with
  | [] => args
  | p :: rest' => generic_args (S i) rest' (<["arg" +:+ pretty i := AStr p]> args)
  end.

(** [if text.startswith('/'): text = text[1:]] *)
Definition remove_leading_slash (text : string) : string :=
  match text with
  | String "/" rest => rest
  | _ => text
  end.

Definition parse_command `{!PyStr.Runtime} (text : string)
    : outcome (string * option (gmap string argval)) :=
  let text := PyStr.strip text in
  let text := remove_leading_slash text in
  if bool_decide (text = EmptyString) then mret (EmptyString, None) else
  let parts := PyStr.split text in
  p0 ← getitem parts 0;
  let command := PyStr.lower p0 in
  if bool_decide (length parts = 1%nat) then mret (command, None) else
  if bool_decide (command ∈ ["run"; "exec"; "run_screen"]) then
    mret (command, Some {["command" := AStr (PyStr.join " " (drop 1 parts))]})
  else if bool_decide (command ∈ ["kill"]) then
    target ← (if bool_decide (1 < length parts)%nat
              then AStr <$> getitem parts 1 else mret ANone);
    mret (command, Some {["target" := target]})
  else if bool_decide (command ∈ ["ps"; "list"])
          && bool_decide (1 < length parts)%nat then
    p1 ← getitem parts 1;
    mret (command, Some {["filter" := AStr p1]})
  else if bool_decide (command = "set_password")
          && bool_decide (1 < length parts)%nat then
    password ← getitem parts 1;
    xor_key ← (if bool_decide (2 < length parts)%nat
               then p2 ← getitem parts 2; AInt <$> PyStr.int p2
               else mret ANone);
    mret (command, Some (<["xor_key" := xor_key]> {["password" := AStr password]}))
  else if bool_decide (command = "log")
          && bool_decide (1 < length parts)%nat then
    p1 ← getitem parts 1;
    mret (command, Some {["api_key" := AStr p1]})
  else if bool_decide (command = "cleanup")
          && bool_decide (1 < length parts)%nat then
    p1 ← getitem parts 1;
    match PyStr.int p1 with
    | Returns n => mret (command, Some {["max_age_hours" := AInt n]})
    | Raises (ValueError _) => mret (command, None)
    | Raises e => Raises e
    end
  else
    let args := generic_args 1 (drop 1 parts) ∅ in
    mret (command, if bool_decide (args = ∅) then None else Some args).

Definition _create_error_response (message : string) : response :=
  {| success := Some false;
     message := Some message;
     handler := Some "router";
     data := None |}.

(** One invocation [handler.handle(command, args)] made by the router. *)
Record call := {
  callee : string;
  call_command : string;
  call_args : gmap string argval;
}.

(** [if args is None: args = {}] and [if context: args['_context'] = context] *)
Definition add_context (args : option (gmap string argval))
    (context : option message_info) : gmap string argval :=
  let args := default ∅ args in
  match context with
  | Some c => if dict_truthy c then <["_context" := ACtx c]> args else args
  | None => args
  end.

(** The body of the [try] of [route_command], with the handler
    invocations it makes. *)
Definition route_try `{!PyStr.Runtime}
    (self : t) (text : string) (context : option message_info)
    : outcome response * list call :=
  match parse_command text with
  | Raises e => (Raises e, [])
  | Returns (command, args) =>
      if bool_decide (command = EmptyString) then
        (Returns (_create_error_response "Empty command"), [])
      else
        let args := add_context args context in
        match command_map self !! command with
        | None =>
            (Returns (_create_error_response ("Unknown command: " +:+ command)), [])
        | Some handler_name =>
            match handlers self !! handler_name with
            | None => (Raises (KeyError handler_name), [])
            | Some h =>
                (handle h command args,
                 [{| callee := handler_name;
                     call_command := command;
                     call_args := args |}])
            end
        end
  end.

(** [except Exception as e: return self._create_error_response(f"Routing error: {e}")] *)
Definition except_Exception `{!PyStr.Runtime} (o : outcome response)
    : outcome response :=
  match o with
  | Returns r => Returns r
  | Raises e =>
      if is_Exception e
      then Returns (_create_error_response ("Routing error: " +:+ exn_str e))
      else Raises e
  end.

Definition route_command `{!PyStr.Runtime}
    (self : t) (text : string) (context : option message_info)
    : outcome response * list call :=
  let '(o, calls) := route_try self text context in
  (except_Exception o, calls).

(** Every handler name in [command_map] is a key of [handlers]. *)
Definition consistent (self : t) : Prop :=
  ∀ command handler_name,
    command_map self !! command = Some handler_name →
    is_Some (handlers self !! handler_name).

End CommandRouter.

(** ** The adapter contract *)

(** What an adapter does to the outside: the calls of its send primitives,
    of the platform's reply, of the message handler and of [os.remove].
    Calls of the logger are left out. *)
Inductive event :=
  | send_text (text : string) (context : message_info)
  | send_image (image_path : pyval) (caption : string) (context : message_info)
  | reply_text (text : string)
  | handler_call (text : string) (context : message_info)
  | os_remove (path : string).

(** The files of the host and the calls made so far. *)
Record world := {
  files : gset string;
  undeletable : gset string;
  trace : list event;
}.

Definition io (A : Type) : Type := world → outcome A * world.

Global Instance io_ret : MRet io := λ A a w, (Returns a, w).
Global Instance io_bind : MBind io := λ A B f m w,
  match m w with
  | (Returns a, w') => f a w'
  | (Raises e, w') => (Raises e, w')
  end.

Definition raise {A} (e : exn) : io A := λ w, (Raises e, w).

Definition add_event (ev : event) (w : world) : world :=
  {| files := files w; undeletable := undeletable w; trace := trace w ++ [ev] |}.

Definition emit (ev : event) : io () := λ w, (Returns (), add_event ev w).

(** [try: body except Exception as e: handler(e)] *)
Definition try_except {A} (body : io A) (handler : exn → io A) : io A := λ w,
  match body w with
  | (Raises e, w') => if is_Exception e then handler e w' else (Raises e, w')
  | (Returns a, w') => (Returns a, w')
  end.

(** [try: body except: handler] *)
Definition try_except_all {A} (body : io A) (handler : io A) : io A := λ w,
  match body w with
  | (Raises e, w') => handler w'
  | (Returns a, w') => (Returns a, w')
  end.

(** [os.path.exists(path)] *)
Definition os_path_exists (path : string) : io bool := λ w,
  (Returns (bool_decide (path ∈ files w)), w).

(** [os.remove(path)] *)
Definition os_remove_file (path : string) : io () := λ w,
  let w' := add_event (os_remove path) w in
  if bool_decide (path ∈ files w) then
    if bool_decide (path ∈ undeletable w) then
      (Raises (OSError 13 "Permission denied" path), w')
    else
      (Returns (), {| files := files w ∖ {[path]}; undeletable := undeletable w;
                      trace := trace w' |})
  else
    (Raises (OSError 2 "No such file or directory" path), w').

Module BaseAdapter.

(** The abstract methods of [BaseAdapter] over a platform's message type.
    The send primitives report failure by their result and do not raise
    (the result of sending an image may depend on the files present);
    [extract_message_info] does not raise either. *)
Class t (PlatformMessage : Type) := {
  extract_message_info : PlatformMessage → message_info;
  is_authorized : message_info → bool;
  send_text_result : string → message_info → bool;
  send_image_result : gset string → pyval → string → message_info → bool;
}.

Section methods.
Context {PlatformMessage : Type} `{!t PlatformMessage} `{!PyStr.Runtime}.

(** [self.message_handler], as set by [set_message_handler]. *)
Variable message_handler : option (string → message_info → outcome response).

Definition send_text_message (text : string) (context : message_info) : io bool :=
  emit (send_text text context);; mret (send_text_result text context).

Definition send_image_message (image_path : pyval) (caption : string)
    (context : message_info) : io bool := λ w,
  (Returns (send_image_result (files w) image_path caption context),
   add_event (send_image image_path caption context) w).

(** [await self.message_handler(text, message_info)] *)
Definition call_message_handler
    (h : string → message_info → outcome response)
    (text : string) (context : message_info) : io response :=
  emit (handler_call text context);;
  match h text context with
  | Returns r => mret r
  | Raises e => raise e
  end.

Definition handle_response (response : response) (context : message_info) : io () :=
  try_except
    (let message := default "No message" (message response) in
     let success := default false (success response) in
     let data := default ∅ (data response) in
     send_text_message message context;;
     match data !! "image_path" with
     | Some image_path =>
         let caption := (if success then "ðŸ“¸ " else "âŒ ") +:+ message in
         send_image_message image_path caption context;;
         try_except
           (match image_path with
            | PStr path =>
                found ← os_path_exists path;
                if found && PyStr.contains "/tmp/" path
                then os_remove_file path
                else mret ()
            | _ => mret ()
            end)
           (λ e, mret ())
     | None => mret ()
     end)
    (λ e, mret ()).

Definition handle_platform_message (platform_message : PlatformMessage) : io () :=
  try_except
    (let message_info := extract_message_info platform_message in
     if negb (is_authorized message_info) then
       send_text_message "Unauthorized access." message_info;; mret ()
     else
       let text := PyStr.strip (default EmptyString (text message_info)) in
       if bool_decide (text = EmptyString) then mret ()
       else
         match message_handler with
         | Some h =>
             response ← call_message_handler h text message_info;
             handle_response response message_info
         | None => mret ()
         end)
    (λ e,
       try_except_all
         (let message_info := extract_message_info platform_message in
          send_text_message ("Error processing message: " +:+ exn_str e) message_info;;
          mret ())
         (mret ())).

End methods.

End BaseAdapter.

(** ** The Telegram adapter *)

(** The parts of a python-telegram-bot [Update] that the adapter reads. *)
Record TgUser := { tg_user_id : Z; tg_username : option string }.
Record TgMessage := {
  tg_text : option string;
  tg_message_id : Z;
  tg_date : Z;
}.
Record Update := {
  upd_message : option TgMessage;
  effective_chat : option Z;
  effective_user : option TgUser;
}.

Module TelegramAdapter.

Record t := {
  bot_token : string;
  authorized_chat_id : string;
  bot_start_time : Z;
  message_handler : option (string → message_info → outcome response);
  (** whether [application] is set and its bot delivers what it is given *)
  send_ok : bool;
  (** the file descriptors of the process that can be read *)
  open_fd : Z → bool;
}.

(** [TelegramAdapter(bot_token, authorized_chat_id)], constructed at time
    [now] in a process with the descriptors [fds]: no message handler is
    set yet, and [application] is [None] until [start]. *)
Definition init (bot_token : string) (authorized_chat_id : pyval) (now : Z)
    (fds : Z → bool) : t :=
  {| bot_token := bot_token;
     authorized_chat_id := py_str authorized_chat_id;
     bot_start_time := now;
     message_handler := None;
     send_ok := false;
     open_fd := fds |}.

Definition set_message_handler
    (h : string → message_info → outcome response) (self : t) : t :=
  {| bot_token := bot_token self;
     authorized_chat_id := authorized_chat_id self;
     bot_start_time := bot_start_time self;
     message_handler := Some h;
     send_ok := send_ok self;
     open_fd := open_fd self |}.

Definition _is_message_recent (self : t) (message_date : Z) : bool :=
  bool_decide (bot_start_time self ≤ message_date).

Definition is_authorized (self : t) (context : message_info) : bool :=
  let chat_id := py_str (default (PStr EmptyString) (chat_id context)) in
  bool_decide (chat_id = authorized_chat_id self).

Definition extract_message_info (self : t) (update : Update) : message_info :=
  match upd_message update, effective_chat update with
  | Some message, Some chat =>
      {| chat_id := Some (PStr (py_str (PInt chat)));
         user_id := Some (match effective_user update with
                          | Some u => PStr (py_str (PInt (tg_user_id u)))
                          | None => PNone
                          end);
         username := Some (match effective_user update with
                           | Some u => from_option PStr PNone (tg_username u)
                           | None => PNone
                           end);
         text := Some (default EmptyString (tg_text message));
         message_id := Some (tg_message_id message);
         date := Some (tg_date message);
         is_recent := Some (_is_message_recent self (tg_date message)) |}
  | _, _ =>
      {| chat_id := Some (PStr "unknown");
         user_id := None;
         username := None;
         text := Some EmptyString;
         message_id := None;
         date := None;
         is_recent := Some false |}
  end.

(** The result of [send_text_message]: [True] when the bot is there, the
    context has a chat id that is not false, and the bot delivers. *)
Definition send_result (self : t) (context : message_info) : bool :=
  match chat_id context with
  | None | Some PNone | Some (PBool false) | Some (PInt 0) | Some (PStr EmptyString) => false
  | Some _ => send_ok self
  end.

(** [os.path.exists(image_path)] as [send_image_message] reads it: a
    string names a file, a number or a boolean a descriptor, and [None]
    raises a [TypeError], which the method answers with [False]. *)
Definition image_exists (self : t) (present : gset string) (image_path : pyval) : bool :=
  match image_path with
  | PStr path => bool_decide (path ∈ present)
  | PInt n => open_fd self n
  | PBool b => open_fd self (if b then 1 else 0)
  | PNone => false
  end.

(** The result of [send_image_message]: as for a text, and the image has
    to exist. *)
Definition send_image_result (self : t) (present : gset string)
    (image_path : pyval) (context : message_info) : bool :=
  send_result self context && image_exists self present image_path.

(** The Telegram adapter as a [BaseAdapter]. *)
Definition adapter (self : t) : BaseAdapter.t Update := {|
  BaseAdapter.extract_message_info := extract_message_info self;
  BaseAdapter.is_authorized := is_authorized self;
  BaseAdapter.send_text_result := λ _ context, send_result self context;
  BaseAdapter.send_image_result :=
    λ present image_path _ context, send_image_result self present image_path context;
|}.

(** [await update.message.reply_text(text)] *)
Definition reply (update : Update) (text : string) : io () :=
  match upd_message update with
  | Some _ => emit (reply_text text)
  | None => raise (AttributeError "'NoneType' object has no attribute 'reply_text'")
  end.

Definition _handle_text_message `{!PyStr.Runtime} (self : t) (update : Update) : io () :=
  @BaseAdapter.handle_platform_message _ (adapter self) _ (message_handler self) update.

Definition _handle_command_message `{!PyStr.Runtime}
    (self : t) (update : Update) : io () :=
  let message_info := extract_message_info self update in
  if negb (is_authorized self message_info) then
    reply update "Unauthorized."
  else if negb (default false (is_recent message_info)) then
    reply update "Ignoring old message (sent before bot started)."
  else
    @BaseAdapter.handle_platform_message _ (adapter self) _ (message_handler self) update.

End TelegramAdapter.

(** ** Registry histories and sample handlers *)

(** A registry operation, and the registry reached from the empty one by a
    sequence of them. *)
Inductive registry_op :=
  | Register (h : BaseHandler)
  | Unregister (handler_name : string).

Definition apply_op (self : CommandRouter.t) (o : registry_op) : CommandRouter.t :=
  match o with
  | Register h => CommandRouter.register_handler h self
  | Unregister handler_name => (CommandRouter.unregister_handler handler_name self).2
  end.

Definition run_ops (ops : list registry_op) : CommandRouter.t :=
  foldl apply_op CommandRouter.init ops.

Module Samples.

Definition ok_response (owner msg : string) : response :=
  {| success := Some true; message := Some msg; handler := Some owner; data := None |}.

(** A handler that owns [run] and [ps]. *)
Definition shell : BaseHandler :=
  {| name := "shell";
     get_supported_commands := ["run"; "ps"];
     handle := λ command _, Returns (ok_response "shell" command) |}.

(** A second handler that declares [run] too. *)
Definition screen : BaseHandler :=
  {| name := "screen";
     get_supported_commands := ["run"; "run_screen"];
     handle := λ command _, Returns (ok_response "screen" command) |}.

(** A handler that owns [cleanup] and [kill]; [kill] shuts the process
    down the way [SystemManager.shutdown_system] does, with [sys.exit(0)]. *)
Definition system : BaseHandler :=
  {| name := "system";
     get_supported_commands := ["cleanup"; "kill"];
     handle := λ command _,
       if bool_decide (command = "kill") then Raises (SystemExit 0)
       else Returns (ok_response "system" "Cleaned up") |}.

End Samples.

Module AdapterSamples.

(** An adapter for the principal 42, started at time 1000, whose message
    handler is the router with the [shell] handler registered. *)
Definition operator `{!PyStr.Runtime} : TelegramAdapter.t :=
  TelegramAdapter.set_message_handler
    (λ text info,
       (CommandRouter.route_command
          (CommandRouter.register_handler Samples.shell CommandRouter.init)
          text (Some info)).1)
    (TelegramAdapter.init "token" (PInt 42) 1000 (λ _, false)).

Definition update_at (body : string) (sent_at : Z) : Update :=
  {| upd_message :=
       Some {| tg_text := Some body; tg_message_id := 7; tg_date := sent_at |};
     effective_chat := Some 42;
     effective_user := None |}.

(** A text of spaces only: U+00A0, a blank, U+2003 and a line feed. *)
Definition blank : string :=
  String "194" (String "160" (String " "
    (String "226" (String "128" (String "131" (String "010" EmptyString)))))).

Definition host (present : list string) : world :=
  {| files := list_to_set present; undeletable := ∅; trace := [] |}.

Definition capture (path : string) : response :=
  {| success := Some true; message := Some "Screenshot taken";
     handler := Some "capture"; data := Some {["image_path" := PStr path]} |}.

End AdapterSamples.

(** ** Further parts of the router *)

(** The names for which [parse_command] has a shape of its own. *)
Definition shaped_commands : list string :=
  ["run"; "exec"; "run_screen"; "kill"; "ps"; "list"; "set_password"; "log"; "cleanup"].

Module CommandRouterViews.
Import CommandRouter.

(** [sorted(list(self.command_map.keys()))]: strings are ordered by their
    characters, a prefix first. *)
Definition get_available_commands (self : t) : list string :=
  merge_sort (≤)%string ((map_to_list (command_map self)).*1).

End CommandRouterViews.

(** ** The router behind an adapter *)

(** [route_command] of a router as the message handler of an adapter: the
    text and the message dictionary are its two arguments. *)
Definition router_handler `{!PyStr.Runtime} (r : CommandRouter.t)
    : string → message_info → outcome response :=
  λ text info, (CommandRouter.route_command r text (Some info)).1.

(** The message dictionary that [extract_message_info] returns when the
    update cannot be read. *)
Definition unreadable : message_info :=
  {| chat_id := Some (PStr "unknown"); user_id := None; username := None;
     text := Some EmptyString; message_id := None; date := None;
     is_recent := Some false |}.

Module MoreSamples.

(** A message handler that fails with a [RuntimeError]. *)
Definition failing : string → message_info → outcome response :=
  λ _ _, Raises (RuntimeError "boom").

(** An adapter for the principal 42, started at time 1000, with the
    failing handler. *)
Definition fragile : TelegramAdapter.t :=
  TelegramAdapter.set_message_handler failing
    (TelegramAdapter.init "token" (PInt 42) 1000 (λ _, false)).

(** An update from chat [chat]. *)
Definition update_from (chat : Z) (body : string) (sent_at : Z) : Update :=
  {| upd_message :=
       Some {| tg_text := Some body; tg_message_id := 7; tg_date := sent_at |};
     effective_chat := Some chat;
     effective_user := None |}.

(** An update with no message. *)
Definition no_message : Update :=
  {| upd_message := None; effective_chat := Some 42; effective_user := None |}.

End MoreSamples.

(** ** The security manager *)

Module SecurityManager.

(** One entry of [authorized_chats]. *)
Record chat_entry := {
  added_at : Z;
  metadata : gmap string pyval;
}.

Record t := {
  log_key : string;
  xor_key : Z;
  authorized_chats : gmap string chat_entry;
  bot_start_time : Z;
}.

(** [SecurityManager(log_key, xor_key)], constructed at time [now]. *)
Definition init (log_key : string) (xor_key : Z) (now : Z) : t :=
  {| log_key := log_key; xor_key := xor_key; authorized_chats := ∅;
     bot_start_time := now |}.

(** The manager with [log_key] set to [key]. *)
Definition with_log_key (key : string) (self : t) : t :=
  {| log_key := key; xor_key := xor_key self;
     authorized_chats := authorized_chats self;
     bot_start_time := bot_start_time self |}.

(** [xor_key or self.xor_key]: no key and the key [0] both fall back. *)
Definition key_or_default (self : t) (key : option Z) : Z :=
  match key with
  | Some k => if bool_decide (k = 0) then xor_key self else k
  | None => xor_key self
  end.

(** [bytes([...])] accepts the values of [range(0, 256)]. *)
Definition is_byte (v : Z) : bool := (0 <=? v) && (v <? 256).

(** [chr(v)] accepts the values of [range(0x110000)]. *)
Definition is_code_point (v : Z) : bool := (0 <=? v) && (v <? 1114112).

(** Two lower-case hexadecimal digits. *)
Definition hex_byte (b : Z) : string :=
  String (PyStr.hex_digit (Z.to_N (b / 16)))
    (String (PyStr.hex_digit (Z.to_N (b mod 16))) EmptyString).

(** [bs.hex()] *)
Fixpoint bytes_hex (bs : list Z) : string :=
  match bs with
  | [] => EmptyString
  | b :: bs' => hex_byte b +:+ bytes_hex bs'
  end.

Definition hex_val (c : ascii) : option Z :=
  let n := Z.of_N (N_of_ascii c) in
  if (48 <=? n) && (n <=? 57) then Some (n - 48)
  else if (97 <=? n) && (n <=? 102) then Some (n - 87)
  else if (65 <=? n) && (n <=? 70) then Some (n - 55)
  else None.

(** [bytes.fromhex(s)]: pairs of hexadecimal digits, with ASCII spaces
    allowed between the pairs; [None] stands for [ValueError]. *)
Fixpoint fromhex (s : string) : option (list Z) :=
  match s with
  | EmptyString => Some []
  | String c s' =>
      if Ascii.is_space c then fromhex s'
      else
        match hex_val c, s' with
        | Some hi, String c' s'' =>
            match hex_val c' with
            | Some lo => cons (hi * 16 + lo) <$> fromhex s''
            | None => None
            end
        | _, _ => None
        end
  end.

(** A password is the list of its code points. *)
Definition encode_password (self : t) (password : list Z) (key : option Z) : string :=
  let k := key_or_default self key in
  let xored := (λ c, Z.lxor c k) <$> password in
  if forallb is_byte xored then bytes_hex xored else EmptyString.

Definition decode_password (self : t) (key : option Z) : option (list Z) :=
  if bool_decide (log_key self = EmptyString) then None
  else
    let k := key_or_default self key in
    match fromhex (log_key self) with
    | None => None
    | Some xored_bytes =>
        let password := (λ b, Z.lxor b k) <$> xored_bytes in
        if forallb is_code_point password then Some password else None
    end.



End SecurityManager.

(** ** The process manager *)

Module ProcessManager.

Record t := { default_timeout : Z }.

(** [ProcessManager()] *)
Definition init : t := {| default_timeout := 10 |}.

(** What [subprocess.run(command, shell=True, capture_output=True,
    text=True, timeout=timeout)] does: the process completes with a return
    code and its two outputs, the timeout expires, or the call raises. *)
Inductive run_result :=
  | Completed (returncode : Z) (stdout stderr : string)
  | TimeoutExpired
  | Failed (e : exn).

(** [a or b] on strings: the empty string is false. *)
Definition str_or (a b : string) : string :=
  if bool_decide (a = EmptyString) then b else a.

(** [timeout or self.default_timeout]: no timeout and the timeout [0]
    both fall back. *)
Definition timeout_or_default (self : t) (timeout : option Z) : Z :=
  match timeout with
  | Some s => if bool_decide (s = 0) then default_timeout self else s
  | None => default_timeout self
  end.

(** [execute_command(command, timeout)], over the shell [run]. *)
Definition execute_command `{!PyStr.Runtime}
    (run : string → Z → run_result) (self : t)
    (command : string) (timeout : option Z) : outcome (bool * string) :=
  let timeout := timeout_or_default self timeout in
  match run command timeout with
  | Completed returncode stdout stderr =>
      let output :=
        str_or (PyStr.strip stdout) (str_or (PyStr.strip stderr) "(No output)") in
      let output :=
        if bool_decide (4000 < PyStr.len output)%nat
        then PyStr.take 4000 output +:+ "... (truncated)"
        else output in
      let success := bool_decide (returncode = 0) in
      Returns (success, output)
  | TimeoutExpired =>
      Returns (false, "Command timed out after " +:+ pretty timeout +:+ " seconds")
  | Failed e =>
      if is_Exception e
      then Returns (false, "Error executing command: " +:+ exn_str e)
      else Raises e
  end.

Definition list_processes `{!PyStr.Runtime}
    (run : string → Z → run_result) (self : t)
    (filter_term : option string) : outcome string :=
  let cmd :=
    match filter_term with
    | Some f => if bool_decide (f = EmptyString) then "ps aux"
                else "ps aux" +:+ " | grep " +:+ f
    | None => "ps aux"
    end in
  match execute_command run self cmd None with
  | Returns (success, output) =>
      Returns (if success then output else "Failed to list processes")
  | Raises e =>
      if is_Exception e then Returns ("Error: " +:+ exn_str e) else Raises e
  end.

End ProcessManager.

(** Runs the monadic plumbing of an [io] computation. *)
Ltac io_unfold :=
  unfold try_except, try_except_all, BaseAdapter.call_message_handler,
    BaseAdapter.send_text_message, BaseAdapter.send_image_message,
    os_path_exists, os_remove_file, emit, raise,
    mbind, io_bind, mret, io_ret;
  cbn.

(** * Properties *)

(** ** String builtins *)

Module PyStrFacts.
Import PyStr.

(** Turns the tests on bytes into comparisons of numbers. *)
Ltac bools :=
  intros;
  unfold two_byte_space, three_byte_space, ascii_space, is_cont in *;
  cbn zeta in *;
  repeat (progress
    rewrite ?andb_true_iff, ?orb_true_iff, ?andb_false_iff, ?orb_false_iff,
      ?negb_true_iff, ?negb_false_iff,
      ?N.eqb_eq, ?N.eqb_neq, ?N.leb_le, ?N.ltb_lt, ?N.leb_gt, ?N.ltb_ge in * ).

Lemma ascii_space_not_cont c : ascii_space c = true → is_cont c = false.
Proof. bools. lia. Qed.

Lemma two_cont c1 c2 : two_byte_space c1 c2 = true → is_cont c2 = true.
Proof. bools. lia. Qed.

Lemma two_lead c1 c2 : two_byte_space c1 c2 = true → is_cont c1 = false.
Proof. bools. lia. Qed.

Lemma three_cont2 c1 c2 c3 : three_byte_space c1 c2 c3 = true → is_cont c2 = true.
Proof. bools. lia. Qed.

Lemma three_cont3 c1 c2 c3 : three_byte_space c1 c2 c3 = true → is_cont c3 = true.
Proof. bools. lia. Qed.

Lemma three_lead c1 c2 c3 : three_byte_space c1 c2 c3 = true → is_cont c1 = false.
Proof. bools. lia. Qed.

Lemma append_cons c (a b : string) : String c a +:+ b = String c (a +:+ b).
Proof. reflexivity. Qed.

Lemma append_nil_r (a : string) : a +:+ EmptyString = a.
Proof. induction a as [|c a IH]; [done|]. by rewrite append_cons, IH. Qed.

Lemma append_assoc (a b c : string) : (a +:+ b) +:+ c = a +:+ (b +:+ c).
Proof. induction a as [|x a IH]; [done|]. by rewrite !append_cons, IH. Qed.

Lemma length_append (a b : string) :
  String.length (a +:+ b) = (String.length a + String.length b)%nat.
Proof. induction a as [|c a IH]; [done|]. rewrite append_cons. cbn. by rewrite IH. Qed.

Lemma append_nil_l (a : string) : EmptyString +:+ a = a.
Proof. reflexivity. Qed.

Ltac norm_app := rewrite ?append_cons, ?append_nil_l in *.

Lemma space_width_le s : (space_width s ≤ String.length s)%nat.
Proof.
  destruct s as [|c1 [|c2 [|c3 s]]]; cbn; try lia.
  - destruct (ascii_space c1); lia.
  - destruct (ascii_space c1); [lia|]. destruct (two_byte_space c1 c2); lia.
  - destruct (ascii_space c1); [lia|]. destruct (two_byte_space c1 c2); [lia|].
    destruct (three_byte_space c1 c2 c3); lia.
Qed.

Lemma space_width_app_l s t k :
  space_width s = S k → space_width (s +:+ t) = S k.
Proof.
  destruct s as [|c1 [|c2 [|c3 s]]]; norm_app; cbn; try done.
  - destruct (ascii_space c1); done.
  - destruct (ascii_space c1); [done|]. destruct (two_byte_space c1 c2); done.
Qed.

Lemma space_width_app_r s t :
  s ≠ EmptyString → starts_clean t = true →
  space_width (s +:+ t) = space_width s.
Proof.
  intros Hs Ht.
  destruct s as [|c1 [|c2 [|c3 s]]]; norm_app; cbn; try done.
  - destruct (ascii_space c1); [done|].
    destruct t as [|c2 t]; [done|]. cbn in Ht. apply negb_true_iff in Ht.
    destruct (two_byte_space c1 c2) eqn:E2; [apply two_cont in E2; congruence|].
    destruct t as [|c3 t]; [done|].
    destruct (three_byte_space c1 c2 c3) eqn:E3; [apply three_cont2 in E3; congruence|].
    done.
  - destruct (ascii_space c1); [done|]. destruct (two_byte_space c1 c2); [done|].
    destruct t as [|c3 t]; [done|]. cbn in Ht. apply negb_true_iff in Ht.
    destruct (three_byte_space c1 c2 c3) eqn:E3; [apply three_cont3 in E3; congruence|].
    done.
Qed.

Lemma space_width_clean s k : space_width s = S k → starts_clean s = true.
Proof.
  destruct s as [|c1 [|c2 [|c3 s]]]; cbn; try done.
  - destruct (ascii_space c1) eqn:E; [|done]. by rewrite ascii_space_not_cont.
  - destruct (ascii_space c1) eqn:E; [by rewrite ascii_space_not_cont|].
    destruct (two_byte_space c1 c2) eqn:E2; [|done]. by rewrite (two_lead _ _ E2).
  - destruct (ascii_space c1) eqn:E; [by rewrite ascii_space_not_cont|].
    destruct (two_byte_space c1 c2) eqn:E2; [by rewrite (two_lead _ _ E2)|].
    destruct (three_byte_space c1 c2 c3) eqn:E3; [|done].
    by rewrite (three_lead _ _ _ E3).
Qed.

Lemma space_width_conts c s k : space_width (String c s) = S k → conts k s = true.
Proof.
  destruct s as [|c2 [|c3 s]]; cbn.
  - destruct (ascii_space c); [by intros [= <-]|done].
  - destruct (ascii_space c); [by intros [= <-]|].
    destruct (two_byte_space c c2) eqn:E2; [|done]. intros [= <-]. cbn.
    by rewrite (two_cont _ _ E2).
  - destruct (ascii_space c); [by intros [= <-]|].
    destruct (two_byte_space c c2) eqn:E2.
    + intros [= <-]. cbn. by rewrite (two_cont _ _ E2).
    + destruct (three_byte_space c c2 c3) eqn:E3; [|done]. intros [= <-]. cbn.
      by rewrite (three_cont2 _ _ _ E3), (three_cont3 _ _ _ E3).
Qed.

Lemma space_width_cont c s : is_cont c = true → space_width (String c s) = 0%nat.
Proof.
  intros Hc. destruct (space_width (String c s)) eqn:E; [done|].
  apply space_width_clean in E. cbn in E. by rewrite Hc in E.
Qed.


Lemma space_width_prefix x t k :
  space_width (x +:+ t) = S k → (S k ≤ String.length x)%nat → space_width x = S k.
Proof.
  destruct x as [|c1 [|c2 [|c3 x]]]; norm_app; cbn; try done; try lia.
  - destruct (ascii_space c1); [done|]. intros H Hk.
    destruct t as [|c2 [|c3 t]]; [done|..].
    + destruct (two_byte_space c1 c2); [|done]. injection H as <-. lia.
    + destruct (two_byte_space c1 c2); [injection H as <-; lia|].
      destruct (three_byte_space c1 c2 c3); [|done]. injection H as <-. lia.
  - destruct (ascii_space c1); [done|]. destruct (two_byte_space c1 c2); [done|].
    intros H Hk. destruct t as [|c3 t]; [done|].
    destruct (three_byte_space c1 c2 c3); [|done]. injection H as <-. lia.
Qed.

Lemma all_space_clean b : all_space b = true → starts_clean b = true.
Proof.
  destruct b as [|c b]; [done|]. unfold all_space. cbn [spaces_from].
  destruct (space_width (String c b)) eqn:E; [done|]. intros _.
  by eapply space_width_clean.
Qed.

Lemma all_space_starts_break b : all_space b = true → starts_break b = true.
Proof.
  destruct b as [|c b]; [done|]. unfold all_space. cbn [spaces_from starts_break].
  by destruct (space_width (String c b)).
Qed.

Lemma starts_break_clean b : starts_break b = true → starts_clean b = true.
Proof.
  destruct b as [|c b]; [done|]. cbn [starts_break].
  destruct (space_width (String c b)) eqn:E; [done|]. intros _.
  by eapply space_width_clean.
Qed.

(** ** Tokens *)

Lemma split_nil_from k s : tokens k s = [] ↔ spaces_from k s = true.
Proof.
  revert k. induction s as [|c s IH]; intros k; [done|].
  cbn [tokens spaces_from]. destruct k as [|k]; [|apply IH].
  destruct (space_width (String c s)) as [|k]; [|apply IH].
  split; [|done]. destruct (starts_break s); [done|].
  by destruct (tokens 0 s).
Qed.

Lemma split_nil s : split s = [] ↔ all_space s = true.
Proof. apply split_nil_from. Qed.

Lemma split_nonempty_from k s : Forall (λ t, t ≠ EmptyString) (tokens k s).
Proof.
  revert k. induction s as [|c s IH]; intros k; [constructor|].
  cbn [tokens]. destruct k as [|k]; [|apply IH].
  destruct (space_width (String c s)) as [|k]; [|apply IH].
  destruct (starts_break s); [by constructor|].
  pose proof (IH 0%nat) as H0.
  destruct (tokens 0 s) as [|t ts]; [by repeat constructor|].
  inversion H0; subst. by constructor.
Qed.

Lemma split_nonempty s : Forall (λ t, t ≠ EmptyString) (split s).
Proof. apply split_nonempty_from. Qed.

Lemma spaces_from_app k a b :
  spaces_from k a = true → (k ≤ String.length a)%nat →
  spaces_from k (a +:+ b) = all_space b.
Proof.
  revert k. induction a as [|c a IH]; intros k.
  - intros _ Hk. cbn in Hk. by replace k with 0%nat by lia.
  - rewrite append_cons. cbn [spaces_from String.length]. destruct k as [|k].
    + destruct (space_width (String c a)) as [|k] eqn:E; [done|].
      intros Ha _. rewrite <- append_cons, (space_width_app_l _ b _ E).
      apply IH; [done|]. pose proof (space_width_le (String c a)) as Hle.
      rewrite E in Hle. cbn in Hle. lia.
    + intros Ha Hk. apply IH; [done|lia].
Qed.

Lemma all_space_app a b :
  all_space a = true → all_space (a +:+ b) = all_space b.
Proof. intros Ha. apply spaces_from_app; [done|lia]. Qed.

Lemma lskip_spec k s :
  ∃ a, s = a +:+ lskip k s ∧ spaces_from k a = true ∧
       ((k ≤ String.length s)%nat → (k ≤ String.length a)%nat).
Proof.
  revert k. induction s as [|c s IH]; intros k.
  - exists EmptyString. cbn. tauto.
  - cbn [lskip]. destruct k as [|k].
    + destruct (space_width (String c s)) as [|k] eqn:E.
      * exists EmptyString. cbn. split; [done|]. split; [done|lia].
      * destruct (IH k) as (a & Hs & Ha & Hk).
        pose proof (space_width_le (String c s)) as Hle. rewrite E in Hle.
        cbn in Hle. exists (String c a). rewrite append_cons, <- Hs.
        split; [done|]. split; [|lia]. cbn [spaces_from].
        rewrite (space_width_prefix (String c a) (lskip k s) k); [done| |cbn; lia].
        by rewrite append_cons, <- Hs.
    + destruct (IH k) as (a & Hs & Ha & Hk).
      exists (String c a). rewrite append_cons, <- Hs. split; [done|].
      split; [done|]. cbn. lia.
Qed.

Lemma lstrip_spec s :
  ∃ a, s = a +:+ lstrip s ∧ all_space a = true.
Proof. destruct (lskip_spec 0 s) as (a & ? & ? & _). by exists a. Qed.

Lemma lskip_width k s :
  (k ≤ String.length s)%nat → space_width (lskip k s) = 0%nat.
Proof.
  revert k. induction s as [|c s IH]; intros k Hk; [done|].
  cbn [lskip]. destruct k as [|k].
  - destruct (space_width (String c s)) as [|k] eqn:E; [done|].
    apply IH. pose proof (space_width_le (String c s)) as Hle. rewrite E in Hle.
    cbn in Hle. lia.
  - apply IH. cbn in Hk. lia.
Qed.

Lemma lstrip_width s : space_width (lstrip s) = 0%nat.
Proof. apply lskip_width. lia. Qed.

Lemma lstrip_id s : space_width s = 0%nat → lstrip s = s.
Proof. destruct s as [|c s]; [done|]. unfold lstrip. cbn [lskip]. by intros ->. Qed.

Lemma rstrip_spec s : ∃ b, s = rstrip s +:+ b ∧ all_space b = true.
Proof.
  induction s as [|c s IH]; [by exists EmptyString|].
  cbn [rstrip]. destruct (all_space (String c s)) eqn:E.
  - by exists (String c s).
  - destruct IH as (b & Hs & Hb). exists b. by rewrite append_cons, <- Hs.
Qed.

Lemma rstrip_empty s : rstrip s = EmptyString ↔ all_space s = true.
Proof.
  destruct s as [|c s]; [done|]. cbn [rstrip].
  by destruct (all_space (String c s)).
Qed.

Lemma ends_ok_rstrip s : ends_ok (rstrip s) = true.
Proof.
  induction s as [|c s IH]; [done|]. cbn [rstrip].
  destruct (all_space (String c s)) eqn:E; [done|].
  cbn [ends_ok]. rewrite IH, andb_true_r. apply negb_true_iff.
  destruct (all_space (String c (rstrip s))) eqn:E'; [|done].
  destruct (rstrip_spec s) as (b & Hs & Hb).
  rewrite <- (all_space_app _ b E'), append_cons, <- Hs in Hb. congruence.
Qed.

Lemma ends_ok_tail c s : ends_ok (String c s) = true → ends_ok s = true.
Proof. cbn [ends_ok]. by intros [_ ?]%andb_true_iff. Qed.

Lemma ends_ok_suffix a s : ends_ok (a +:+ s) = true → ends_ok s = true.
Proof.
  induction a as [|c a IH]; [done|]. rewrite append_cons. intros H%ends_ok_tail. auto.
Qed.

Lemma ends_ok_lstrip s : ends_ok s = true → ends_ok (lstrip s) = true.
Proof.
  destruct (lstrip_spec s) as (a & Hs & _). rewrite Hs at 1. apply ends_ok_suffix.
Qed.

Lemma ends_ok_strip s : ends_ok (strip s) = true.
Proof. apply ends_ok_lstrip, ends_ok_rstrip. Qed.

Lemma ends_ok_not_all_space s :
  ends_ok s = true → s ≠ EmptyString → all_space s = false.
Proof.
  destruct s as [|c s]; [done|]. cbn [ends_ok].
  by intros [?%negb_true_iff _]%andb_true_iff _.
Qed.


(** ** Tokens have no space *)

Lemma space_free_width t : space_free t = true → space_width t = 0%nat.
Proof.
  destruct t as [|c t]; [done|]. cbn [space_free].
  by intros [?%Nat.eqb_eq _]%andb_true_iff.
Qed.

(** The first token is a prefix of a text that starts with none of the
    spaces, and what follows it is empty or starts with a space. *)
Lemma tokens_space_free k s :
  Forall (λ t, space_free t = true) (tokens k s) ∧
  (k = 0%nat → starts_break s = false →
   ∃ t ts r, tokens 0 s = t :: ts ∧ s = t +:+ r ∧ starts_break r = true).
Proof.
  revert k. induction s as [|c s IH]; intros k; [split; [constructor|done]|].
  cbn [tokens]. destruct k as [|k]; [|split; [apply IH|done]].
  destruct (space_width (String c s)) as [|k] eqn:E.
  2:{ split; [apply IH|]. intros _. cbn [starts_break]. by rewrite E. }
  destruct (IH 0%nat) as [Hall Hfirst].
  destruct (starts_break s) eqn:Hb.
  - split.
    + constructor; [|done]. cbn [space_free]. rewrite andb_true_r. apply Nat.eqb_eq.
      rewrite <- E. symmetry.
      apply (space_width_app_r (String c EmptyString) s); [done|].
      by apply starts_break_clean.
    + intros _ _. by exists (String c EmptyString), (tokens 0 s), s.
  - destruct (Hfirst eq_refl eq_refl) as (t & ts & r & Ht & Hs & Hr).
    rewrite Ht in Hall |- *. inversion Hall as [|?? Hsf Hrest]; subst.
    assert (space_width (String c t) = 0%nat) as Hw.
    { rewrite <- E. symmetry. rewrite <- append_cons.
      apply space_width_app_r; [done|]. by apply starts_break_clean. }
    split.
    + constructor; [|done]. cbn [space_free]. rewrite Hw. by rewrite Hsf.
    + intros _ _. by exists (String c t), ts, r.
Qed.

Lemma split_space_free s : Forall (λ t, space_free t = true) (split s).
Proof. apply tokens_space_free. Qed.

Lemma space_free_tail c t : space_free (String c t) = true → space_free t = true.
Proof. cbn [space_free]. by intros [_ ?]%andb_true_iff. Qed.

(** The two ends meet: a text is trimmed to nothing exactly when it is
    made of spaces. *)
Lemma strip_empty s : strip s = EmptyString ↔ all_space s = true.
Proof.
  unfold strip. split.
  - intros He. destruct (all_space s) eqn:Hs; [done|].
    assert (rstrip s ≠ EmptyString) as Hne by (by rewrite rstrip_empty, Hs).
    pose proof (ends_ok_not_all_space _ (ends_ok_rstrip s) Hne) as Hr.
    destruct (lstrip_spec (rstrip s)) as (a & Ha & Hsp).
    rewrite He, append_nil_r in Ha. congruence.
  - intros Hs. by rewrite (proj2 (rstrip_empty s)).
Qed.

(** ** ASCII text *)

Lemma is_ascii_append a b : is_ascii (a +:+ b) = is_ascii a && is_ascii b.
Proof.
  induction a as [|c a IH]; [done|]. rewrite append_cons. cbn [is_ascii].
  by rewrite IH, andb_assoc.
Qed.

(** Trimming an ASCII text gives an ASCII text that is no longer. *)
Lemma strip_ascii s :
  is_ascii s = true →
  is_ascii (strip s) = true ∧ (String.length (strip s) ≤ String.length s)%nat.
Proof.
  intros Hs. unfold strip.
  destruct (rstrip_spec s) as (b & Hb & _).
  destruct (lstrip_spec (rstrip s)) as (a & Ha & _).
  rewrite Hb, Ha, !is_ascii_append in Hs.
  apply andb_true_iff in Hs as [[_ Hs]%andb_true_iff _].
  split; [done|]. rewrite Hb at 2. rewrite Ha at 2. rewrite !length_append. lia.
Qed.

(** The tokens of an ASCII text are ASCII and no longer than the text. *)
Lemma tokens_ascii k s :
  is_ascii s = true →
  Forall (λ t, is_ascii t = true ∧ (String.length t ≤ String.length s)%nat)
    (tokens k s).
Proof.
  revert k. induction s as [|c s IH]; intros k Hs; [constructor|].
  cbn [is_ascii] in Hs. apply andb_true_iff in Hs as [Hc Hs].
  assert (∀ j, Forall (λ t, is_ascii t = true ∧
                            (String.length t ≤ String.length (String c s))%nat)
                 (tokens j s)) as Hweak.
  { intros j. eapply Forall_impl; [apply (IH j Hs)|]. cbn. intros t [? ?].
    split; [done|lia]. }
  cbn [tokens]. destruct k as [|k]; [|apply Hweak].
  destruct (space_width (String c s)) as [|k]; [|apply Hweak].
  destruct (starts_break s).
  - constructor; [|apply Hweak]. cbn [is_ascii]. rewrite Hc. cbn. split; [done|lia].
  - pose proof (IH 0%nat Hs) as H0. pose proof (Hweak 0%nat) as H1.
    destruct (tokens 0 s) as [|t ts].
    + constructor; [|constructor]. cbn [is_ascii]. rewrite Hc. cbn.
      split; [done|lia].
    + inversion H0 as [|?? [Ht Hl] _]; inversion H1 as [|?? _ Hts]; subst.
      constructor; [|done]. cbn [is_ascii]. rewrite Hc, Ht. cbn. split; [done|lia].
Qed.

End PyStrFacts.

Module ParserFacts.
Import CommandRouter PyStr PyStrFacts.

Lemma remove_leading_slash_cases s :
  remove_leading_slash s = s ∨ s = String "/" (remove_leading_slash s).
Proof. destruct s as [|[[] [] [] [] [] [] [] []] s]; auto. Qed.

Lemma remove_leading_slash_empty s :
  remove_leading_slash s = EmptyString ↔ s = EmptyString ∨ s = "/".
Proof.
  split.
  - destruct (remove_leading_slash_cases s) as [->| ->]; [auto|].
    simpl. intros ->. auto.
  - by intros [->| ->].
Qed.

Lemma ends_ok_remove_leading_slash s :
  ends_ok s = true → ends_ok (remove_leading_slash s) = true.
Proof.
  destruct (remove_leading_slash_cases s) as [->|E]; [done|].
  rewrite E at 1. apply ends_ok_tail.
Qed.

(** After trimming and removing the marker, a text that is not empty has a
    first token. *)
Lemma tokens_nonempty text :
  remove_leading_slash (strip text) ≠ EmptyString →
  ∃ p0 rest, split (remove_leading_slash (strip text)) = p0 :: rest ∧ p0 ≠ EmptyString.
Proof.
  intros Hne.
  pose proof (ends_ok_remove_leading_slash _ (ends_ok_strip text)) as Hok.
  pose proof (ends_ok_not_all_space _ Hok Hne) as Hsp.
  pose proof (split_nonempty (remove_leading_slash (strip text))) as Hall.
  destruct (split (remove_leading_slash (strip text))) as [|p0 rest] eqn:E.
  - apply split_nil in E. congruence.
  - inversion Hall; subst. eauto.
Qed.

(** The only exception [parse_command] raises is the [ValueError] of
    [int]: the indexing of [parts] is always in range. *)
Lemma parse_command_raises `{!Runtime} text e :
  parse_command text = Raises e → ∃ m, e = ValueError m.
Proof.
  unfold parse_command.
  case_bool_decide as Hne; [done|].
  destruct (tokens_nonempty _ Hne) as (p0 & rest & -> & _).
  simpl getitem. simpl mbind. unfold mbind, outcome_bind.
  case_bool_decide; [done|].
  destruct rest as [|p1 rest]; [done|].
  repeat (case_bool_decide; simpl andb; try done); cbn.
  all: repeat match goal with
         | |- context [int ?x] =>
             let E := fresh "E" in
             destruct (int x) eqn:E; [|apply int_raises in E as [? ->]]; cbn
         end.
  all: try done.
  destruct rest as [|p2 rest]; [simpl in *; lia|]. cbn.
  destruct (int p2) eqn:E; [done|].
  apply int_raises in E as [? ->]. cbn. intros [= <-]. eauto.
Qed.

Lemma remove_leading_slash_ascii s :
  is_ascii s = true →
  is_ascii (remove_leading_slash s) = true ∧
  (String.length (remove_leading_slash s) ≤ String.length s)%nat.
Proof.
  intros Hs. destruct (remove_leading_slash_cases s) as [->|E]; [done|].
  rewrite E in Hs. cbn [is_ascii] in Hs. apply andb_true_iff in Hs as [_ Hs].
  split; [done|]. rewrite E at 2. cbn. lia.
Qed.

(** On an ASCII text of at most 40 characters the parse is the same under
    every runtime: it is the one computed with the ASCII builtins. *)
Lemma parse_command_ascii `{!Runtime} text :
  is_ascii text = true → (String.length text ≤ 40)%nat →
  parse_command text = @parse_command ascii_runtime text.
Proof.
  intros Ha Hl. unfold parse_command.
  destruct (strip_ascii _ Ha) as [Ha1 Hl1].
  destruct (remove_leading_slash_ascii _ Ha1) as [Ha2 Hl2].
  pose proof (tokens_ascii 0 _ Ha2) as Hall.
  pose proof (split_space_free (remove_leading_slash (strip text))) as Hsf.
  fold (split (remove_leading_slash (strip text))) in Hall.
  case_bool_decide; [done|].
  assert (∀ t, t ∈ split (remove_leading_slash (strip text)) →
               lower t = ascii_lower t ∧ int t = ascii_int t) as Hsame.
  { intros t Ht.
    destruct (proj1 (Forall_forall _ _) Hall t Ht) as [Hta Htl].
    pose proof (proj1 (Forall_forall _ _) Hsf t Ht) as Hts.
    split; [by apply lower_ascii|]. apply int_ascii; [done..|lia]. }
  destruct (split (remove_leading_slash (strip text))) as [|p0 [|p1 [|p2 rest]]];
    [done|..]; cbn [getitem lookup list_lookup mbind outcome_bind].
  all: rewrite (proj1 (Hsame p0 ltac:(repeat constructor))).
  all: change (@lower ascii_runtime p0) with (ascii_lower p0).
  - done.
  - rewrite (proj2 (Hsame p1 ltac:(repeat constructor))). done.
  - rewrite (proj2 (Hsame p1 ltac:(repeat constructor))),
      (proj2 (Hsame p2 ltac:(repeat constructor))). done.
Qed.

End ParserFacts.

Module RouterFacts.
Import CommandRouter PyStr PyStrFacts ParserFacts.

(** What [route_command] does once the text is parsed to a command name
    that is not empty. *)
Lemma route_command_parsed `{!Runtime} self text context command args :
  parse_command text = Returns (command, args) →
  command ≠ EmptyString →
  route_command self text context =
    match command_map self !! command with
    | None => (Returns (_create_error_response ("Unknown command: " +:+ command)), [])
    | Some handler_name =>
        match handlers self !! handler_name with
        | None =>
            (Returns (_create_error_response ("Routing error: " +:+ repr handler_name)), [])
        | Some h =>
            (except_Exception (handle h command (add_context args context)),
             [{| callee := handler_name; call_command := command;
                 call_args := add_context args context |}])
        end
    end.
Proof.
  intros Hp Hne. unfold route_command, route_try. rewrite Hp.
  rewrite bool_decide_eq_false_2 by done.
  destruct (command_map self !! command) as [hn|]; [|done].
  by destruct (handlers self !! hn).
Qed.

Lemma route_command_empty `{!Runtime} self text context args :
  parse_command text = Returns (EmptyString, args) →
  route_command self text context =
    (Returns (_create_error_response "Empty command"), []).
Proof. intros Hp. unfold route_command, route_try. by rewrite Hp. Qed.

(** The parse of a text with at least two tokens whose command is
    [cleanup]. *)
Lemma parse_command_cleanup `{!Runtime} text p0 p1 rest :
  split (remove_leading_slash (strip text)) = p0 :: p1 :: rest →
  lower p0 = "cleanup" →
  parse_command text =
    match int p1 with
    | Returns n => Returns ("cleanup", Some {["max_age_hours" := AInt n]})
    | Raises _ => Returns ("cleanup", None)
    end.
Proof.
  intros Hs Hl. unfold parse_command.
  case_bool_decide as Hne; [by rewrite Hne in Hs|].
  rewrite Hs. cbn. rewrite Hl. cbn.
  destruct (int p1) as [n|e] eqn:E; [done|].
  by apply int_raises in E as [m ->].
Qed.

(** The parse of a text with one token. *)
Lemma parse_command_single `{!Runtime} text p0 :
  split (remove_leading_slash (strip text)) = [p0] →
  parse_command text = Returns (lower p0, None).
Proof.
  intros Hs. unfold parse_command.
  case_bool_decide as Hne; [by rewrite Hne in Hs|].
  by rewrite Hs.
Qed.

(** The parse of a text with at least two tokens whose command is one of
    [run], [exec] and [run_screen]. *)
Lemma parse_command_run `{!Runtime} text p0 p1 rest :
  split (remove_leading_slash (strip text)) = p0 :: p1 :: rest →
  lower p0 ∈ ["run"; "exec"; "run_screen"] →
  parse_command text =
    Returns (lower p0, Some {["command" := AStr (join " " (p1 :: rest))]}).
Proof.
  intros Hs Hin. unfold parse_command.
  case_bool_decide as Hne; [by rewrite Hne in Hs|].
  rewrite Hs. cbn [getitem lookup list_lookup mbind outcome_bind length drop].
  rewrite bool_decide_eq_false_2 by done.
  by rewrite bool_decide_eq_true_2.
Qed.

(** A [set_password] whose third token [int] refuses: the parse raises
    the exception of [int], which [route_command] reports as a routing
    error, with no handler invoked. *)
Lemma route_command_set_password_bad_key `{!Runtime}
    self text context p0 p1 p2 rest e :
  split (remove_leading_slash (strip text)) = p0 :: p1 :: p2 :: rest →
  lower p0 = "set_password" →
  int p2 = Raises e →
  parse_command text = Raises e ∧
  route_command self text context =
    (Returns (_create_error_response ("Routing error: " +:+ exn_str e)), []).
Proof.
  intros Hs Hl Hi.
  assert (parse_command text = Raises e) as Hp.
  { unfold parse_command.
    case_bool_decide as Hne; [by rewrite Hne in Hs|].
    rewrite Hs. cbn. rewrite Hl. cbn. by rewrite Hi. }
  split; [done|]. unfold route_command, route_try. rewrite Hp.
  apply int_raises in Hi as [m ->]. done.
Qed.

(** The texts of the examples are ASCII: what they evaluate to holds
    under every runtime. *)
Ltac ascii_text := first [reflexivity | cbn; lia].

(** The shapes of the arguments, on the command surface. *)
Example parse_set_password_without_key `{!Runtime} :
  parse_command "/set_password abc99" =
    Returns ("set_password",
             Some (<["xor_key" := ANone]> {["password" := AStr "abc99"]})).
Proof. by rewrite parse_command_ascii by ascii_text. Qed.

Example parse_set_password_with_key `{!Runtime} :
  parse_command "/set_password abc99 7" =
    Returns ("set_password",
             Some (<["xor_key" := AInt 7]> {["password" := AStr "abc99"]})).
Proof. by rewrite parse_command_ascii by ascii_text. Qed.

Example parse_set_password_bad_key `{!Runtime} :
  parse_command "/set_password abc99 notanumber" =
    Raises (ValueError "invalid literal for int() with base 10: 'notanumber'").
Proof. by rewrite parse_command_ascii by ascii_text. Qed.

Example parse_cleanup_hours `{!Runtime} :
  parse_command "cleanup 48" = Returns ("cleanup", Some {["max_age_hours" := AInt 48]}).
Proof. by rewrite parse_command_ascii by ascii_text. Qed.

Example parse_generic `{!Runtime} :
  parse_command "/Echo a b" =
    Returns ("echo", Some (<["arg2" := AStr "b"]> {["arg1" := AStr "a"]})).
Proof. by rewrite parse_command_ascii by ascii_text. Qed.

Example parse_kill_alone `{!Runtime} : parse_command "/kill" = Returns ("kill", None).
Proof. by rewrite parse_command_ascii by ascii_text. Qed.

Example route_unknown `{!Runtime} :
  route_command init "/unknowncmd" None =
    (Returns (_create_error_response "Unknown command: unknowncmd"), []).
Proof.
  unfold route_command, route_try. by rewrite parse_command_ascii by ascii_text.
Qed.

(** Texts outside ASCII.  A no-break space (U+00A0) separates tokens as a
    blank does, under every runtime. *)
Example parse_run_no_break_space `{!Runtime} :
  parse_command ("/run" +:+ String "194" (String "160" "ls")) =
    Returns ("run", Some {["command" := AStr "ls"]}).
Proof.
  rewrite (parse_command_run _ "run" "ls" []); rewrite ?lower_ascii; try done.
  apply list_elem_of_here.
Qed.

(** Where the runtime reads the full-width digits of ["１２"] as the number
    twelve, [cleanup] gets it as its argument. *)
Example parse_cleanup_full_width `{!Runtime} :
  int "１２" = Returns 12 →
  parse_command "/cleanup １２" =
    Returns ("cleanup", Some {["max_age_hours" := AInt 12]}).
Proof.
  intros Hi. rewrite (parse_command_cleanup _ "cleanup" "１２" []); [|done|].
  - by rewrite Hi.
  - by rewrite lower_ascii.
Qed.

(** Where the runtime lowers the Kelvin sign (U+212A) to [k], the command
    ["/Kill"] spelled with it is [kill]. *)
Example parse_kill_kelvin `{!Runtime} :
  lower "Kill" = "kill" →
  parse_command "/Kill 1" = Returns ("kill", Some {["target" := AStr "1"]}).
Proof.
  intros Hl.
  assert (split (remove_leading_slash (strip "/Kill 1")) = ["Kill"; "1"]) as Hs
    by reflexivity.
  unfold parse_command. case_bool_decide as Hne; [by rewrite Hne in Hs|].
  rewrite Hs. cbn. by rewrite Hl.
Qed.

(** ["/cleanup soon"]: no arguments, and the routing of the bare command. *)
Example cleanup_soon `{!Runtime} :
  parse_command "/cleanup soon" = Returns ("cleanup", None) ∧
  route_command (register_handler Samples.system init) "/cleanup soon" None =
    (Returns (Samples.ok_response "system" "Cleaned up"),
     [{| callee := "system"; call_command := "cleanup"; call_args := ∅ |}]) ∧
  route_command init "/cleanup soon" None =
    (Returns (_create_error_response "Unknown command: cleanup"), []).
Proof.
  unfold route_command, route_try.
  by rewrite parse_command_ascii by ascii_text.
Qed.

(** ["/kill"] with the [system] handler: the [SystemExit] of the handler
    leaves [route_command]. *)
Example kill_exits `{!Runtime} :
  route_command (register_handler Samples.system init) "/kill" None =
    (Raises (SystemExit 0),
     [{| callee := "system"; call_command := "kill"; call_args := ∅ |}]).
Proof.
  unfold route_command, route_try.
  by rewrite parse_command_ascii by ascii_text.
Qed.

End RouterFacts.

Module RegistryFacts.
Import CommandRouter.

Lemma lookup_foldl_insert (n : string) (l : list string) (m : gmap string string) c :
  foldl (λ m command, <[command := n]> m) m l !! c =
    if decide (c ∈ l) then Some n else m !! c.
Proof.
  revert m. induction l as [|x l IH]; intros m; cbn [foldl].
  - by rewrite decide_False by (by intros ?%elem_of_nil).
  - rewrite IH. destruct (decide (c = x)) as [->|Hne].
    + rewrite lookup_insert_eq, (decide_True (P := x ∈ x :: l)) by constructor.
      by case_decide.
    + rewrite lookup_insert_ne by done.
      destruct (decide (c ∈ l)).
      * by rewrite decide_True by (by constructor).
      * by rewrite decide_False by (by intros [?|?]%elem_of_cons).
Qed.

Lemma lookup_foldl_delete (l : list string) (m : gmap string string) c :
  foldl (λ m command, delete command m) m l !! c =
    if decide (c ∈ l) then None else m !! c.
Proof.
  revert m. induction l as [|x l IH]; intros m; cbn [foldl].
  - by rewrite decide_False by (by intros ?%elem_of_nil).
  - rewrite IH. destruct (decide (c = x)) as [->|Hne].
    + rewrite lookup_delete_eq, (decide_True (P := x ∈ x :: l)) by constructor.
      by case_decide.
    + rewrite lookup_delete_ne by done.
      destruct (decide (c ∈ l)).
      * by rewrite decide_True by (by constructor).
      * by rewrite decide_False by (by intros [?|?]%elem_of_cons).
Qed.

(** The commands that [unregister_handler] collects are those mapped to
    the handler. *)
Lemma elem_of_commands_to_remove (n : string) (m : gmap string string) c :
  c ∈ (filter (λ cm, cm.2 = n) (map_to_list m)).*1 ↔ m !! c = Some n.
Proof.
  rewrite list_elem_of_fmap. split.
  - intros ([c' hn] & -> & [Hn Hin]%list_elem_of_filter). simpl in *. subst.
    by apply elem_of_map_to_list.
  - intros Hc. exists (c, n). split; [done|].
    apply list_elem_of_filter. split; [done|]. by apply elem_of_map_to_list.
Qed.

Lemma lookup_register_command h self c :
  command_map (register_handler h self) !! c =
    if decide (c ∈ get_supported_commands h) then Some (name h)
    else command_map self !! c.
Proof. apply lookup_foldl_insert. Qed.

Lemma lookup_register_handler h self :
  handlers (register_handler h self) !! name h = Some h.
Proof. apply lookup_insert_eq. Qed.

Lemma unregister_handler_found n self :
  (unregister_handler n self).1 = bool_decide (is_Some (handlers self !! n)).
Proof.
  unfold unregister_handler. destruct (handlers self !! n) eqn:E.
  - symmetry. by apply bool_decide_eq_true_2.
  - symmetry. apply bool_decide_eq_false_2. by intros [? [=]].
Qed.

Lemma lookup_unregister_command n self c :
  is_Some (handlers self !! n) →
  command_map (unregister_handler n self).2 !! c =
    if decide (command_map self !! c = Some n) then None
    else command_map self !! c.
Proof.
  intros [h Hh]. unfold unregister_handler. rewrite Hh. simpl.
  rewrite lookup_foldl_delete.
  destruct (decide (command_map self !! c = Some n)) as [Hc|Hc].
  - rewrite decide_True; [done|]. by apply elem_of_commands_to_remove.
  - rewrite decide_False; [done|]. by rewrite elem_of_commands_to_remove.
Qed.

Lemma lookup_unregister_handler n self hn :
  handlers (unregister_handler n self).2 !! hn =
    if decide (n = hn) then None else handlers self !! hn.
Proof.
  unfold unregister_handler. destruct (handlers self !! n) eqn:E; simpl.
  - destruct (decide (n = hn)) as [->|Hne].
    + by rewrite lookup_delete_eq.
    + by rewrite lookup_delete_ne.
  - destruct (decide (n = hn)) as [<-|Hne]; done.
Qed.

Lemma consistent_init : consistent init.
Proof. intros c hn. cbn. by rewrite lookup_empty. Qed.

Lemma consistent_register h self :
  consistent self → consistent (register_handler h self).
Proof.
  intros Hc c hn. rewrite lookup_register_command.
  case_decide.
  - intros [= <-]. rewrite lookup_register_handler. eauto.
  - intros Hm%Hc. unfold register_handler; simpl.
    rewrite lookup_insert_is_Some. destruct (decide (name h = hn)); auto.
Qed.

Lemma consistent_unregister n self :
  consistent self → consistent (unregister_handler n self).2.
Proof.
  intros Hc c hn. destruct (handlers self !! n) as [h|] eqn:Hn.
  - rewrite lookup_unregister_command by eauto.
    case_decide as Hd; [done|]. intros Hm.
    rewrite lookup_unregister_handler. rewrite decide_False by congruence.
    by eapply Hc.
  - unfold unregister_handler. rewrite Hn. simpl. apply Hc.
Qed.

Lemma consistent_run_ops ops : consistent (run_ops ops).
Proof.
  unfold run_ops. generalize consistent_init. generalize init.
  induction ops as [|o ops IH]; intros self Hc; simpl; [done|].
  apply IH. destruct o; simpl; auto using consistent_register, consistent_unregister.
Qed.

End RegistryFacts.

Module AdapterFacts.
Import CommandRouter.

Lemma handle_response_run {PM} `{!BaseAdapter.t PM} (resp : response) context w :
  BaseAdapter.handle_response resp context w =
    let message := default "No message" (message resp) in
    let w1 := add_event (send_text message context) w in
    match default ∅ (data resp) !! "image_path" with
    | None => (Returns (), w1)
    | Some image_path =>
        let caption :=
          (if default false (success resp) then "ðŸ“¸ " else "âŒ ") +:+ message in
        let w2 := add_event (send_image image_path caption context) w1 in
        match image_path with
        | PStr path =>
            if bool_decide (path ∈ files w) && PyStr.contains "/tmp/" path
            then (Returns (),
                  if bool_decide (path ∈ undeletable w)
                  then add_event (os_remove path) w2
                  else {| files := files w ∖ {[path]};
                          undeletable := undeletable w;
                          trace := trace (add_event (os_remove path) w2) |})
            else (Returns (), w2)
        | _ => (Returns (), w2)
        end
    end.
Proof.
  unfold BaseAdapter.handle_response. io_unfold.
  destruct (default ∅ (data resp) !! "image_path") as [[| | |path]|]; cbn; try done.
  destruct (bool_decide (path ∈ files w)) eqn:Hf; cbn; [|done].
  destruct (PyStr.contains "/tmp/" path); cbn; [|done].
  rewrite Hf. by destruct (bool_decide (path ∈ undeletable w)).
Qed.

(** [handle_response] returns, and only adds to the calls made. *)
Lemma handle_response_extends {PM} `{!BaseAdapter.t PM} (resp : response) context w :
  ∃ w' rest,
    BaseAdapter.handle_response resp context w = (Returns (), w') ∧
    trace w' = (trace w ++ rest)%list.
Proof.
  rewrite handle_response_run. cbn zeta.
  destruct (default ∅ (data resp) !! "image_path") as [[| | |path]|];
    cbn; try (eexists _, _; split; [done|]; cbn; by rewrite <- ?app_assoc).
  destruct (bool_decide (path ∈ files w) && PyStr.contains "/tmp/" path);
    [|eexists _, _; split; [done|]; cbn; by rewrite <- ?app_assoc].
  destruct (bool_decide (path ∈ undeletable w));
    eexists _, _; (split; [done|]); cbn; by rewrite <- ?app_assoc.
Qed.

(** [handle_platform_message], case by case. *)
Lemma handle_platform_message_run {PM} `{!BaseAdapter.t PM} `{!PyStr.Runtime}
    message_handler (platform_message : PM) (w : world) :
  BaseAdapter.handle_platform_message message_handler platform_message w =
    let info := BaseAdapter.extract_message_info platform_message in
    let body := PyStr.strip (default EmptyString (text info)) in
    if negb (BaseAdapter.is_authorized info) then
      (Returns (), add_event (send_text "Unauthorized access." info) w)
    else if bool_decide (body = EmptyString) then (Returns (), w)
    else
      match message_handler with
      | None => (Returns (), w)
      | Some h =>
          match h body info with
          | Returns r =>
              BaseAdapter.handle_response r info
                (add_event (handler_call body info) w)
          | Raises e =>
              if is_Exception e then
                (Returns (),
                 add_event
                   (send_text ("Error processing message: " +:+ exn_str e) info)
                   (add_event (handler_call body info) w))
              else (Raises e, add_event (handler_call body info) w)
          end
      end.
Proof.
  unfold BaseAdapter.handle_platform_message.
  unfold try_except, try_except_all, BaseAdapter.call_message_handler,
    BaseAdapter.send_text_message, emit, raise, mbind, io_bind, mret, io_ret.
  cbn -[BaseAdapter.handle_response PyStr.strip].
  destruct (BaseAdapter.is_authorized _); cbn -[BaseAdapter.handle_response PyStr.strip];
    [|done].
  case_bool_decide; [done|].
  destruct message_handler as [h|]; [|done].
  destruct (h _ _) as [r|e]; cbn -[BaseAdapter.handle_response PyStr.strip].
  - destruct (handle_response_extends r
                (BaseAdapter.extract_message_info platform_message)
                (add_event
                   (handler_call
                      (PyStr.strip (default EmptyString
                         (text (BaseAdapter.extract_message_info platform_message))))
                      (BaseAdapter.extract_message_info platform_message)) w))
      as (w' & rest & -> & _). done.
  - by destruct (is_Exception e).
Qed.

(** On the command path a message sent before the adapter started never
    reaches the message handler: the only effect is one reply. *)
Lemma command_path_rejects_stale `{!PyStr.Runtime} self update m w :
  upd_message update = Some m →
  tg_date m < TelegramAdapter.bot_start_time self →
  TelegramAdapter._handle_command_message self update w =
    (Returns (),
     add_event
       (reply_text
          (if TelegramAdapter.is_authorized self
                (TelegramAdapter.extract_message_info self update)
           then "Ignoring old message (sent before bot started)."
           else "Unauthorized."))
       w).
Proof.
  intros Hm Hd. unfold TelegramAdapter._handle_command_message.
  destruct (TelegramAdapter.is_authorized _ _) eqn:Ha; cbn [negb].
  - assert (is_recent (TelegramAdapter.extract_message_info self update)
            = Some false) as Hr.
    { unfold TelegramAdapter.extract_message_info. rewrite Hm.
      destruct (effective_chat update); [|done]. cbn.
      unfold TelegramAdapter._is_message_recent.
      by rewrite bool_decide_eq_false_2 by lia. }
    rewrite Hr; cbn; unfold TelegramAdapter.reply; by rewrite Hm.
  - unfold TelegramAdapter.reply. by rewrite Hm.
Qed.

(** A text sent before the start, with no leading marker, is run by the
    [shell] handler and answered. *)
Example stale_text_is_executed :
  trace (TelegramAdapter._handle_text_message AdapterSamples.operator
           (AdapterSamples.update_at "run ls" 999) (AdapterSamples.host [])).2 =
    [handler_call "run ls"
       (TelegramAdapter.extract_message_info AdapterSamples.operator
          (AdapterSamples.update_at "run ls" 999));
     send_text "run"
       (TelegramAdapter.extract_message_info AdapterSamples.operator
          (AdapterSamples.update_at "run ls" 999))] ∧
  (route_command (register_handler Samples.shell init) "run ls" None).2 =
    [{| callee := "shell"; call_command := "run";
        call_args := {["command" := AStr "ls"]} |}] ∧
  trace (TelegramAdapter._handle_command_message AdapterSamples.operator
           (AdapterSamples.update_at "/run ls" 999) (AdapterSamples.host [])).2 =
    [reply_text "Ignoring old message (sent before bot started)."].
Proof. repeat split; vm_compute; reflexivity. Qed.

End AdapterFacts.

(** * The claims *)

Import CommandRouter.

(** ** The parser and the router *)

(** C7: [parse_command] takes the text alone and returns a value: it
    reads the text through its tokens only, so two texts with the same
    tokens parse alike; the texts [""] and ["/"] parse to the empty name
    with no arguments; the name is empty exactly when the trimmed text is
    empty or the marker alone; and such a text is answered by the router's
    own error, with the message "Empty command", before any lookup: no
    handler is invoked. *)
Theorem C7_empty_name_rejected `{!PyStr.Runtime} :
  (∀ text1 text2,
     (remove_leading_slash (PyStr.strip text1) = EmptyString ↔
      remove_leading_slash (PyStr.strip text2) = EmptyString) →
     PyStr.split (remove_leading_slash (PyStr.strip text1)) =
       PyStr.split (remove_leading_slash (PyStr.strip text2)) →
     parse_command text1 = parse_command text2) ∧
  parse_command EmptyString = Returns (EmptyString, None) ∧
  parse_command "/" = Returns (EmptyString, None) ∧
  (∀ text args,
     parse_command text = Returns (EmptyString, args) ↔
     (PyStr.strip text = EmptyString ∨ PyStr.strip text = "/") ∧ args = None) ∧
  (∀ self text context,
     PyStr.strip text = EmptyString ∨ PyStr.strip text = "/" →
     route_command self text context =
       (Returns {| success := Some false; message := Some "Empty command";
                   handler := Some "router"; data := None |}, [])) ∧
  (∀ self text context,
     match parse_command text with
     | Returns (EmptyString, _) =>
         route_command self text context =
           (Returns {| success := Some false; message := Some "Empty command";
                       handler := Some "router"; data := None |}, [])
     | _ => True
     end).
Proof.
  assert (∀ text args,
            parse_command text = Returns (EmptyString, args) ↔
            (PyStr.strip text = EmptyString ∨ PyStr.strip text = "/") ∧ args = None)
    as Hempty.
  { intros text args. rewrite <- ParserFacts.remove_leading_slash_empty. split.
    - unfold parse_command. case_bool_decide as Hne; [by intros [= <-]|].
      destruct (ParserFacts.tokens_nonempty _ Hne) as (p0 & rest & -> & Hp0).
      cbn. intros Hp. exfalso.
      assert (PyStr.lower p0 ≠ EmptyString) as Hl
        by (by intros ?%PyStr.lower_empty).
      revert Hp. repeat (case_bool_decide; simpl andb; cbn).
      all: repeat match goal with
             | |- context [getitem ?l ?i] => destruct (getitem l i); cbn
             | |- context [PyStr.int ?x] => destruct (PyStr.int x) as [?|[]]; cbn
             end.
      all: unfold mret, outcome_ret; congruence.
    - intros [He ->]. unfold parse_command. by rewrite bool_decide_eq_true_2. }
  split; [|split; [done|split; [done|split; [done|split]]]].
  - intros t1 t2 He Hs. unfold parse_command. rewrite Hs.
    destruct (decide (remove_leading_slash (PyStr.strip t1) = EmptyString)) as [H1|H1].
    + rewrite (bool_decide_eq_true_2 _ H1).
      by rewrite (bool_decide_eq_true_2 _ (proj1 He H1)).
    + rewrite (bool_decide_eq_false_2 _ H1).
      by rewrite (bool_decide_eq_false_2 _ (λ H2, H1 (proj2 He H2))).
  - intros self text context Ht.
    by apply (RouterFacts.route_command_empty self text context None), Hempty.
  - intros self text context.
    destruct (parse_command text) as [[[|c command] args]|] eqn:E; [|done..].
    by apply (RouterFacts.route_command_empty self text context args).
Qed.


(** C6: the text ["/run ls -la"] parses to the name [run] with the single
    argument [command = "ls -la"], the tokens after the name joined by
    single spaces whatever the spacing of the text; and routing it invokes
    exactly one handler, the one that [command_map] names for [run]. *)
Theorem C6_run_ls_la `{!PyStr.Runtime} self context :
  parse_command "/run ls -la" =
    Returns ("run", Some {["command" := AStr "ls -la"]}) ∧
  parse_command "  /RUN   ls     -la " =
    Returns ("run", Some {["command" := AStr "ls -la"]}) ∧
  route_command self "/run ls -la" context =
    match command_map self !! "run" with
    | None => (Returns (_create_error_response "Unknown command: run"), [])
    | Some handler_name =>
        match handlers self !! handler_name with
        | None =>
            (Returns (_create_error_response
                        ("Routing error: " +:+ PyStr.repr handler_name)), [])
        | Some h =>
            (except_Exception
               (handle h "run"
                  (add_context (Some {["command" := AStr "ls -la"]}) context)),
             [{| callee := handler_name; call_command := "run";
                 call_args :=
                   add_context (Some {["command" := AStr "ls -la"]}) context |}])
        end
    end.
Proof.
  assert (PyStr.lower "run" = "run") as Hl1 by (by rewrite PyStr.lower_ascii).
  assert (PyStr.lower "RUN" = "run") as Hl2 by (by rewrite PyStr.lower_ascii).
  assert (parse_command "/run ls -la" =
            Returns ("run", Some {["command" := AStr "ls -la"]})) as Hp.
  { rewrite (RouterFacts.parse_command_run "/run ls -la" "run" "ls" ["-la"]);
      rewrite ?Hl1; [done..|]. apply list_elem_of_here. }
  split; [done|]. split.
  - rewrite (RouterFacts.parse_command_run _ "RUN" "ls" ["-la"]);
      rewrite ?Hl2; [done..|]. apply list_elem_of_here.
  - by rewrite (RouterFacts.route_command_parsed self "/run ls -la" context "run"
                  (Some {["command" := AStr "ls -la"]})).
Qed.

(** C1, as the code has it: a text whose command is [cleanup] and whose
    second token [int] refuses parses to [cleanup] with no arguments, and
    is then routed exactly as the bare command [cleanup]: the router's
    "Unknown command" error when nobody owns [cleanup], and otherwise the
    invocation of its owner with at most the context as arguments. *)
Theorem C1_cleanup_non_integer `{!PyStr.Runtime} self text context p0 p1 rest e :
  PyStr.split (remove_leading_slash (PyStr.strip text)) = p0 :: p1 :: rest →
  PyStr.lower p0 = "cleanup" →
  PyStr.int p1 = Raises e →
  parse_command text = Returns ("cleanup", None) ∧
  route_command self text context = route_command self "cleanup" context ∧
  route_command self text context =
    match command_map self !! "cleanup" with
    | None =>
        (Returns {| success := Some false;
                    message := Some "Unknown command: cleanup";
                    handler := Some "router"; data := None |}, [])
    | Some handler_name =>
        match handlers self !! handler_name with
        | None =>
            (Returns {| success := Some false;
                        message := Some ("Routing error: " +:+ PyStr.repr handler_name);
                        handler := Some "router"; data := None |}, [])
        | Some h =>
            (except_Exception (handle h "cleanup" (add_context None context)),
             [{| callee := handler_name; call_command := "cleanup";
                 call_args := add_context None context |}])
        end
    end.
Proof.
  intros Hs Hl Hi.
  assert (parse_command text = Returns ("cleanup", None)) as Hp.
  { rewrite (RouterFacts.parse_command_cleanup text p0 p1 rest Hs Hl).
    by rewrite Hi. }
  assert (parse_command "cleanup" = Returns ("cleanup", None)) as Hbare.
  { rewrite (RouterFacts.parse_command_single "cleanup" "cleanup") by done.
    by rewrite PyStr.lower_ascii. }
  split; [done|].
  rewrite (RouterFacts.route_command_parsed self text context "cleanup" None)
    by done.
  by rewrite (RouterFacts.route_command_parsed self "cleanup" context "cleanup" None).
Qed.

Lemma C1_cleanup_non_integer_witness :
  PyStr.split (remove_leading_slash (PyStr.strip "/cleanup soon")) = ["cleanup"; "soon"] ∧
  parse_command "/cleanup soon" = Returns ("cleanup", None) ∧
  route_command (register_handler Samples.system init) "/cleanup soon" None =
    route_command (register_handler Samples.system init) "cleanup" None.
Proof.
  split; [reflexivity|].
  pose proof (C1_cleanup_non_integer (register_handler Samples.system init)
                "/cleanup soon" None "cleanup" "soon" [] _
                eq_refl eq_refl eq_refl) as (H1 & H2 & _).
  by split.
Defined.

(** C1 as stated fails: with an owner registered, ["/cleanup soon"] is
    dispatched and succeeds; with no owner, the answer is the "Unknown
    command" message itself; and the parse of a [set_password] with a
    third token that is not an integer raises instead of yielding no
    arguments.  (The texts are ASCII: by [RouterFacts.cleanup_soon] and
    [RouterFacts.parse_set_password_bad_key] the same holds under every
    runtime.) *)
Lemma C1_counterexample :
  parse_command "/cleanup soon" = Returns ("cleanup", None) ∧
  route_command (register_handler Samples.system init) "/cleanup soon" None =
    (Returns (Samples.ok_response "system" "Cleaned up"),
     [{| callee := "system"; call_command := "cleanup"; call_args := ∅ |}]) ∧
  route_command init "/cleanup soon" None =
    (Returns (_create_error_response "Unknown command: cleanup"), []) ∧
  parse_command "/set_password abc99 notanumber" =
    Raises (ValueError "invalid literal for int() with base 10: 'notanumber'").
Proof.
  destruct (@RouterFacts.cleanup_soon ascii_runtime) as (H1 & H2 & H3).
  split; [exact H1|]. split; [exact H2|]. split; [exact H3|].
  exact (@RouterFacts.parse_set_password_bad_key ascii_runtime).
Qed.

(** C3, as the code has it: an exception raised by the parse, by the
    handler lookup or by the handler, when it is an instance of
    [Exception], is turned into the router's error response, whose message
    is "Routing error: " followed by the exception's message; an exception
    outside [Exception] raised by the invoked handler leaves
    [route_command] as it is; and no other exception leaves it. *)
Theorem C3_exceptions_converted `{!PyStr.Runtime} self text context :
  (∀ e, parse_command text = Raises e →
     route_command self text context =
       (Returns (_create_error_response ("Routing error: " +:+ exn_str e)), [])) ∧
  (∀ command args handler_name,
     parse_command text = Returns (command, args) →
     command ≠ EmptyString →
     command_map self !! command = Some handler_name →
     handlers self !! handler_name = None →
     route_command self text context =
       (Returns (_create_error_response
                   ("Routing error: " +:+ exn_str (KeyError handler_name))), [])) ∧
  (∀ command args handler_name h e,
     parse_command text = Returns (command, args) →
     command ≠ EmptyString →
     command_map self !! command = Some handler_name →
     handlers self !! handler_name = Some h →
     handle h command (add_context args context) = Raises e →
     is_Exception e = true →
     (route_command self text context).1 =
       Returns (_create_error_response ("Routing error: " +:+ exn_str e))) ∧
  (∀ command args handler_name h e,
     parse_command text = Returns (command, args) →
     command ≠ EmptyString →
     command_map self !! command = Some handler_name →
     handlers self !! handler_name = Some h →
     handle h command (add_context args context) = Raises e →
     is_Exception e = false →
     route_command self text context =
       (Raises e,
        [{| callee := handler_name; call_command := command;
            call_args := add_context args context |}])) ∧
  (∀ e, (route_command self text context).1 = Raises e →
     is_Exception e = false ∧
     ∃ command args handler_name h,
       parse_command text = Returns (command, args) ∧
       command_map self !! command = Some handler_name ∧
       handlers self !! handler_name = Some h ∧
       handle h command (add_context args context) = Raises e) ∧
  (∀ msg,
     success (_create_error_response msg) = Some false ∧
     message (_create_error_response msg) = Some msg ∧
     handler (_create_error_response msg) = Some "router").
Proof.
  split; [|split; [|split; [|split; [|split]]]].
  - intros e He. unfold route_command, route_try. rewrite He.
    destruct (ParserFacts.parse_command_raises _ _ He) as [m ->]. done.
  - intros command args hn Hp Hne Hc Hh.
    rewrite (RouterFacts.route_command_parsed _ _ _ _ _ Hp Hne), Hc, Hh. done.
  - intros command args hn h e Hp Hne Hc Hh He Hex.
    rewrite (RouterFacts.route_command_parsed _ _ _ _ _ Hp Hne), Hc, Hh. simpl.
    by rewrite He; simpl; rewrite Hex.
  - intros command args hn h e Hp Hne Hc Hh He Hex.
    rewrite (RouterFacts.route_command_parsed _ _ _ _ _ Hp Hne), Hc, Hh.
    unfold except_Exception. by rewrite He, Hex.
  - intros e. unfold route_command, route_try.
    destruct (parse_command text) as [[command args]|e'] eqn:Hp.
    + case_bool_decide; [done|].
      destruct (command_map self !! command) as [hn|] eqn:Hc; [|done].
      destruct (handlers self !! hn) as [h|] eqn:Hh; [|done].
      simpl. destruct (handle h command _) as [r|e'] eqn:He; simpl; [done|].
      destruct (is_Exception e') eqn:Hex; [done|]. intros [= <-].
      split; [done|]. by exists command, args, hn, h.
    + destruct (ParserFacts.parse_command_raises _ _ Hp) as [m ->]. done.
  - done.
Qed.

(** C3 as stated fails: the [kill] handler exits the process with
    [sys.exit(0)], and the [SystemExit] it raises passes through
    [route_command].  (By [RouterFacts.kill_exits], under every runtime.) *)
Lemma C3_counterexample :
  route_command (register_handler Samples.system init) "/kill" None =
    (Raises (SystemExit 0),
     [{| callee := "system"; call_command := "kill"; call_args := ∅ |}]).
Proof. exact (@RouterFacts.kill_exits ascii_runtime). Qed.

(** ** The registry *)

(** C5: when [B] is registered for a command [c] that [A] owns, [c] is
    mapped to [B]; a text that parses to [c] is then routed to [B] alone;
    unregistering [B] succeeds and leaves [c] unmapped; and in any registry,
    unregistering a registered handler unmaps exactly the commands mapped
    to it at that moment, whatever it declared. *)
Theorem C5_override_then_unregister `{!PyStr.Runtime} self A B c :
  command_map self !! c = Some (name A) →
  c ∈ get_supported_commands B →
  command_map (register_handler B self) !! c = Some (name B) ∧
  handlers (register_handler B self) !! name B = Some B ∧
  (∀ text context args,
     parse_command text = Returns (c, args) → c ≠ EmptyString →
     route_command (register_handler B self) text context =
       (except_Exception (handle B c (add_context args context)),
        [{| callee := name B; call_command := c;
            call_args := add_context args context |}])) ∧
  (unregister_handler (name B) (register_handler B self)).1 = true ∧
  command_map (unregister_handler (name B) (register_handler B self)).2 !! c = None ∧
  handlers (unregister_handler (name B) (register_handler B self)).2 !! name B = None ∧
  (∀ r handler_name command,
     is_Some (handlers r !! handler_name) →
     command_map (unregister_handler handler_name r).2 !! command =
       if decide (command_map r !! command = Some handler_name) then None
       else command_map r !! command).
Proof.
  intros _ Hin.
  assert (command_map (register_handler B self) !! c = Some (name B)) as Hc.
  { rewrite RegistryFacts.lookup_register_command. by rewrite decide_True. }
  pose proof (RegistryFacts.lookup_register_handler B self) as Hh.
  repeat split; try done.
  - intros text context args Hp Hne.
    by rewrite (RouterFacts.route_command_parsed _ _ _ _ _ Hp Hne), Hc, Hh.
  - rewrite RegistryFacts.unregister_handler_found.
    apply bool_decide_eq_true_2. eauto.
  - rewrite RegistryFacts.lookup_unregister_command by eauto.
    by rewrite decide_True.
  - rewrite RegistryFacts.lookup_unregister_handler. by rewrite decide_True.
  - intros r n command Hn. by apply RegistryFacts.lookup_unregister_command.
Qed.

Lemma C5_override_then_unregister_witness :
  command_map (register_handler Samples.shell init) !! "run" = Some "shell" ∧
  command_map (register_handler Samples.screen (register_handler Samples.shell init))
    !! "run" = Some "screen" ∧
  command_map
    (unregister_handler "screen"
       (register_handler Samples.screen (register_handler Samples.shell init))).2
    !! "run" = None.
Proof.
  split; [reflexivity|].
  pose proof (C5_override_then_unregister
                (register_handler Samples.shell init) Samples.shell Samples.screen
                "run" eq_refl (list_elem_of_here _ _)) as (H1 & _ & _ & _ & H2 & _).
  by split.
Defined.

(** C10: in a registry reached from the empty one by registrations and
    unregistrations, every handler name in [command_map] is a key of
    [handlers]; so the handler lookup of [route_command] never fails. *)
Theorem C10_registry_consistent `{!PyStr.Runtime} ops :
  (∀ command handler_name,
     command_map (run_ops ops) !! command = Some handler_name →
     is_Some (handlers (run_ops ops) !! handler_name)) ∧
  (∀ text context handler_name,
     route_try (run_ops ops) text context ≠ (Raises (KeyError handler_name), [])) ∧
  (∀ text context command args,
     parse_command text = Returns (command, args) →
     is_Some (command_map (run_ops ops) !! command) →
     command ≠ EmptyString →
     ∃ c, (route_command (run_ops ops) text context).2 = [c]).
Proof.
  pose proof (RegistryFacts.consistent_run_ops ops) as Hc.
  split; [exact Hc|]. split.
  - intros text context hn. unfold route_try.
    destruct (parse_command text) as [[command args]|e] eqn:Hp.
    + case_bool_decide; [done|].
      destruct (command_map (run_ops ops) !! command) as [hn'|] eqn:Hm; [|done].
      destruct (Hc _ _ Hm) as [h ->]. done.
    + destruct (ParserFacts.parse_command_raises _ _ Hp) as [m ->]. done.
  - intros text context command args Hp [hn Hm] Hne.
    rewrite (RouterFacts.route_command_parsed _ _ _ _ _ Hp Hne), Hm.
    destruct (Hc _ _ Hm) as [h ->]. simpl. eauto.
Qed.

(** ** The adapter *)

(** C9, as the code has it: delivering a response always returns, sends
    the message (or "No message") as text first, then, when [data] has the
    key [image_path], sends the image with the caption prefixed by the
    glyph of [success], and then calls [os.remove] exactly when the path is
    a string that names an existing file and contains ["/tmp/"]; whether
    the removal fails has no bearing on the text reply or the result. *)
Theorem C9_delivery {PM} `{!BaseAdapter.t PM} (resp : response) context w :
  (BaseAdapter.handle_response resp context w).1 = Returns () ∧
  trace (BaseAdapter.handle_response resp context w).2 =
    (trace w ++
     send_text (default "No message" (message resp)) context ::
     match default ∅ (data resp) !! "image_path" with
     | None => []
     | Some image_path =>
         send_image image_path
           ((if default false (success resp) then "ðŸ“¸ " else "âŒ ")
            +:+ default "No message" (message resp)) context ::
         match image_path with
         | PStr path =>
             if bool_decide (path ∈ files w) && PyStr.contains "/tmp/" path
             then [os_remove path] else []
         | _ => []
         end
     end)%list.
Proof.
  rewrite AdapterFacts.handle_response_run. cbn zeta.
  destruct (default ∅ (data resp) !! "image_path") as [[| | |path]|];
    cbn; rewrite <- ?app_assoc; try done.
  destruct (bool_decide (path ∈ files w) && PyStr.contains "/tmp/" path);
    cbn; rewrite <- ?app_assoc; [|done].
  by destruct (bool_decide (path ∈ undeletable w)); cbn; rewrite <- ?app_assoc.
Qed.


(** C9 as stated fails in both directions: an artifact path under
    ["/tmp/"] whose file is missing is not removed, and an artifact that
    exists outside ["/tmp/"], in a directory named [tmp], is. *)
Lemma C9_counterexample :
  String.prefix "/tmp/" "/tmp/shot.png" = true ∧
  trace (@BaseAdapter.handle_response _
           (TelegramAdapter.adapter AdapterSamples.operator)
           (AdapterSamples.capture "/tmp/shot.png")
           (TelegramAdapter.extract_message_info AdapterSamples.operator
              (AdapterSamples.update_at "/screenshot" 2000))
           (AdapterSamples.host [])).2 =
    [send_text "Screenshot taken"
       (TelegramAdapter.extract_message_info AdapterSamples.operator
          (AdapterSamples.update_at "/screenshot" 2000));
     send_image (PStr "/tmp/shot.png") "ðŸ“¸ Screenshot taken"
       (TelegramAdapter.extract_message_info AdapterSamples.operator
          (AdapterSamples.update_at "/screenshot" 2000))] ∧
  String.prefix "/tmp/" "/home/op/tmp/shot.png" = false ∧
  trace (@BaseAdapter.handle_response _
           (TelegramAdapter.adapter AdapterSamples.operator)
           (AdapterSamples.capture "/home/op/tmp/shot.png")
           (TelegramAdapter.extract_message_info AdapterSamples.operator
              (AdapterSamples.update_at "/screenshot" 2000))
           (AdapterSamples.host ["/home/op/tmp/shot.png"])).2 =
    [send_text "Screenshot taken"
       (TelegramAdapter.extract_message_info AdapterSamples.operator
          (AdapterSamples.update_at "/screenshot" 2000));
     send_image (PStr "/home/op/tmp/shot.png") "ðŸ“¸ Screenshot taken"
       (TelegramAdapter.extract_message_info AdapterSamples.operator
          (AdapterSamples.update_at "/screenshot" 2000));
     os_remove "/home/op/tmp/shot.png"].
Proof. repeat split; vm_compute; reflexivity. Qed.

(** C8: when the message is authorized and its text is empty or made of
    spaces only (those of [str.strip], the ones outside ASCII included),
    [handle_platform_message] returns and leaves the world as it was: no
    send, no call of the message handler. *)
Theorem C8_empty_text_is_silent {PM} `{!BaseAdapter.t PM} `{!PyStr.Runtime}
    message_handler (platform_message : PM) (w : world) :
  BaseAdapter.is_authorized (BaseAdapter.extract_message_info platform_message) = true →
  PyStr.all_space (default EmptyString
                     (text (BaseAdapter.extract_message_info platform_message)))
    = true →
  BaseAdapter.handle_platform_message message_handler platform_message w
    = (Returns (), w).
Proof.
  intros Ha Ht%PyStrFacts.strip_empty.
  rewrite AdapterFacts.handle_platform_message_run. cbn zeta.
  by rewrite Ha, Ht.
Qed.

Lemma C8_empty_text_is_silent_witness :
  TelegramAdapter.is_authorized AdapterSamples.operator
    (TelegramAdapter.extract_message_info AdapterSamples.operator
       (AdapterSamples.update_at AdapterSamples.blank 2000)) = true ∧
  TelegramAdapter._handle_text_message AdapterSamples.operator
    (AdapterSamples.update_at AdapterSamples.blank 2000) (AdapterSamples.host [])
  = (Returns (), AdapterSamples.host []).
Proof.
  split; [reflexivity|].
  exact (@C8_empty_text_is_silent _
           (TelegramAdapter.adapter AdapterSamples.operator) _
           (TelegramAdapter.message_handler AdapterSamples.operator)
           (AdapterSamples.update_at AdapterSamples.blank 2000) (AdapterSamples.host [])
           eq_refl eq_refl).
Defined.


(** C2, where the code departs from it: on the plain-text path an
    authorized message with a text, sent before the adapter started, is
    handed to the message handler all the same, marked as not recent. *)
Theorem C2_stale_text_reaches_handler `{!PyStr.Runtime} self h update m chat w :
  TelegramAdapter.message_handler self = Some h →
  upd_message update = Some m →
  effective_chat update = Some chat →
  pretty chat = TelegramAdapter.authorized_chat_id self →
  PyStr.strip (default EmptyString (tg_text m)) ≠ EmptyString →
  tg_date m < TelegramAdapter.bot_start_time self →
  is_recent (TelegramAdapter.extract_message_info self update) = Some false ∧
  ∃ rest,
    trace (TelegramAdapter._handle_text_message self update w).2 =
      (trace w ++
       handler_call (PyStr.strip (default EmptyString (tg_text m)))
         (TelegramAdapter.extract_message_info self update) :: rest)%list.
Proof.
  intros Hh Hm Hc Ha Ht Hd.
  assert (is_recent (TelegramAdapter.extract_message_info self update) = Some false)
    as Hr.
  { unfold TelegramAdapter.extract_message_info. rewrite Hm, Hc. cbn.
    unfold TelegramAdapter._is_message_recent.
    by rewrite bool_decide_eq_false_2 by lia. }
  split; [done|].
  unfold TelegramAdapter._handle_text_message.
  rewrite AdapterFacts.handle_platform_message_run. cbn zeta.
  change (BaseAdapter.extract_message_info update)
    with (TelegramAdapter.extract_message_info self update).
  change (BaseAdapter.is_authorized (TelegramAdapter.extract_message_info self update))
    with (TelegramAdapter.is_authorized self
            (TelegramAdapter.extract_message_info self update)).
  set (info := TelegramAdapter.extract_message_info self update).
  assert (TelegramAdapter.is_authorized self info = true) as Hauth.
  { unfold TelegramAdapter.is_authorized, info, TelegramAdapter.extract_message_info.
    rewrite Hm, Hc. cbn. by apply bool_decide_eq_true_2. }
  assert (text info = Some (default EmptyString (tg_text m))) as Htext.
  { unfold info, TelegramAdapter.extract_message_info. by rewrite Hm, Hc. }
  rewrite Hauth, Htext, Hh. cbn [negb].
  change (default EmptyString (Some (default EmptyString (tg_text m))))
    with (default EmptyString (tg_text m)).
  rewrite bool_decide_eq_false_2 by done.
  destruct (h _ info) as [resp|e].
  - destruct (@AdapterFacts.handle_response_extends _ (TelegramAdapter.adapter self)
                resp info
                (add_event
                   (handler_call (PyStr.strip (default EmptyString (tg_text m))) info)
                   w)) as (w' & rest & Hrun & Htr).
    rewrite Hrun. cbn [snd]. rewrite Htr. cbn [trace add_event].
    rewrite <- app_assoc. eauto.
  - destruct (is_Exception e); cbn [snd trace add_event]; rewrite <- ?app_assoc; eauto.
Qed.

Lemma C2_stale_text_reaches_handler_witness :
  tg_date {| tg_text := Some "run ls"; tg_message_id := 7; tg_date := 999 |}
    < TelegramAdapter.bot_start_time AdapterSamples.operator ∧
  ∃ rest,
    trace (TelegramAdapter._handle_text_message AdapterSamples.operator
             (AdapterSamples.update_at "run ls" 999) (AdapterSamples.host [])).2 =
      handler_call "run ls"
        (TelegramAdapter.extract_message_info AdapterSamples.operator
           (AdapterSamples.update_at "run ls" 999)) :: rest.
Proof.
  split; [reflexivity|].
  exact (proj2 (C2_stale_text_reaches_handler AdapterSamples.operator _
                  (AdapterSamples.update_at "run ls" 999) _ 42
                  (AdapterSamples.host [])
                  eq_refl eq_refl eq_refl eq_refl
                  ltac:(vm_compute; discriminate) eq_refl)).
Defined.

(** * Further properties *)

(** ** Tokens *)

Module TokenFacts.
Import PyStr PyStrFacts.

(** ** Spaces at the ends *)

Lemma spaces_from_app_r k x b :
  all_space b = true → (k ≤ String.length x)%nat →
  spaces_from k (x +:+ b) = spaces_from k x.
Proof.
  intros Hb. revert k. induction x as [|c x IH]; intros k Hk.
  - cbn in Hk. by replace k with 0%nat by lia.
  - rewrite append_cons. cbn [spaces_from]. destruct k as [|k]; [|apply IH; cbn in Hk; lia].
    rewrite <- append_cons, space_width_app_r by (done || by apply all_space_clean).
    destruct (space_width (String c x)) as [|k] eqn:E; [done|].
    apply IH. pose proof (space_width_le (String c x)) as Hle. rewrite E in Hle.
    cbn in Hle. lia.
Qed.

Lemma rstrip_app_all_space x b : all_space b = true → rstrip (x +:+ b) = rstrip x.
Proof.
  intros Hb. induction x as [|c x IH]; [by apply rstrip_empty|].
  rewrite append_cons. cbn [rstrip].
  assert (all_space (String c (x +:+ b)) = all_space (String c x)) as ->.
  { rewrite <- append_cons. apply spaces_from_app_r; [done|lia]. }
  by rewrite IH.
Qed.

Lemma conts_le k a : conts k a = true → (k ≤ String.length a)%nat.
Proof.
  revert a. induction k as [|k IH]; intros a; [lia|].
  destruct a as [|c a]; [done|]. cbn. intros [_ H]%andb_true_iff.
  apply IH in H. lia.
Qed.

Lemma rstrip_spaces_app k a s :
  spaces_from k a = true → conts k a = true → all_space s = false →
  rstrip (a +:+ s) = a +:+ rstrip s.
Proof.
  intros Ha Hc Hs. revert k Ha Hc. induction a as [|c a IH]; intros k Ha Hc; [done|].
  rewrite !append_cons. cbn [rstrip].
  destruct k as [|k].
  - cbn [spaces_from] in Ha.
    destruct (space_width (String c a)) as [|k] eqn:E; [done|].
    assert (all_space (String c (a +:+ s)) = false) as ->.
    { rewrite <- append_cons, all_space_app; [done|].
      unfold all_space. cbn [spaces_from]. by rewrite E. }
    f_equal. apply (IH k); [done|]. by eapply space_width_conts.
  - cbn in Ha, Hc. apply andb_true_iff in Hc as [Hc1 Hc2].
    assert (all_space (String c (a +:+ s)) = false) as ->.
    { unfold all_space. cbn [spaces_from]. by rewrite space_width_cont. }
    f_equal. by apply (IH k).
Qed.

Lemma lskip_spaces_app k a t :
  spaces_from k a = true → (k ≤ String.length a)%nat →
  lskip k (a +:+ t) = lstrip t.
Proof.
  revert k. induction a as [|c a IH]; intros k.
  - intros _ Hk. cbn in Hk. by replace k with 0%nat by lia.
  - rewrite append_cons. cbn [lskip spaces_from String.length]. destruct k as [|k].
    + destruct (space_width (String c a)) as [|k] eqn:E; [done|].
      intros Ha _. rewrite <- append_cons, (space_width_app_l _ t _ E).
      apply IH; [done|]. pose proof (space_width_le (String c a)) as Hle.
      rewrite E in Hle. cbn in Hle. lia.
    + intros Ha Hk. apply IH; [done|lia].
Qed.

Lemma lstrip_all_space_app a t : all_space a = true → lstrip (a +:+ t) = lstrip t.
Proof. intros Ha. apply lskip_spaces_app; [done|lia]. Qed.

Lemma strip_surrounded a s b :
  all_space a = true → all_space b = true → strip (a +:+ s +:+ b) = strip s.
Proof.
  intros Ha Hb. unfold strip.
  rewrite <- append_assoc, rstrip_app_all_space by done.
  destruct (all_space s) eqn:Hs.
  - rewrite (proj2 (rstrip_empty (a +:+ s))) by (by rewrite all_space_app).
    by rewrite (proj2 (rstrip_empty s)).
  - rewrite (rstrip_spaces_app 0 a s) by done.
    by apply lstrip_all_space_app.
Qed.

Lemma all_space_width_0 l : all_space l = true → space_width l = 0%nat → l = EmptyString.
Proof.
  destruct l as [|c l]; [done|]. unfold all_space. cbn [spaces_from].
  intros H Hw. by rewrite Hw in H.
Qed.

Lemma rstrip_width l : space_width l = 0%nat → space_width (rstrip l) = 0%nat.
Proof.
  intros Hl. destruct (rstrip_spec l) as (b & Hs & Hb).
  destruct (rstrip l) as [|c r] eqn:E; [done|].
  rewrite Hs in Hl. rewrite space_width_app_r in Hl; [done..|].
  by apply all_space_clean.
Qed.

Lemma lstrip_rstrip_comm s : lstrip (rstrip s) = rstrip (lstrip s).
Proof.
  destruct (lstrip_spec s) as (a & Hs & Ha).
  pose proof (lstrip_width s) as Hw.
  destruct (all_space (lstrip s)) eqn:Hl.
  - pose proof (all_space_width_0 _ Hl Hw) as He.
    rewrite He. rewrite He, append_nil_r in Hs. subst a.
    by rewrite (proj2 (rstrip_empty s)).
  - rewrite Hs at 1. rewrite (rstrip_spaces_app 0 a _) by done.
    rewrite lstrip_all_space_app by done.
    apply lstrip_id. by apply rstrip_width.
Qed.

Lemma all_space_lstrip s : all_space (lstrip s) = all_space s.
Proof.
  destruct (lstrip_spec s) as (a & Hs & Ha).
  rewrite Hs at 2. by rewrite all_space_app.
Qed.

(** ** Tokens and spaces *)

Lemma tokens_spaces_app k a t :
  spaces_from k a = true → (k ≤ String.length a)%nat →
  tokens k (a +:+ t) = split t.
Proof.
  revert k. induction a as [|c a IH]; intros k.
  - intros _ Hk. cbn in Hk. by replace k with 0%nat by lia.
  - rewrite append_cons. cbn [tokens spaces_from String.length]. destruct k as [|k].
    + destruct (space_width (String c a)) as [|k] eqn:E; [done|].
      intros Ha _. rewrite <- append_cons, (space_width_app_l _ t _ E).
      apply IH; [done|]. pose proof (space_width_le (String c a)) as Hle.
      rewrite E in Hle. cbn in Hle. lia.
    + intros Ha Hk. apply IH; [done|lia].
Qed.

Lemma split_all_space_app a t : all_space a = true → split (a +:+ t) = split t.
Proof. intros Ha. apply tokens_spaces_app; [done|lia]. Qed.

Lemma split_lstrip s : split (lstrip s) = split s.
Proof.
  destruct (lstrip_spec s) as (a & Hs & Ha).
  rewrite Hs at 2. by rewrite split_all_space_app.
Qed.

Lemma starts_break_app x b :
  all_space b = true → starts_break (x +:+ b) = starts_break x.
Proof.
  intros Hb. destruct x as [|c x]; [by apply all_space_starts_break|].
  rewrite append_cons. cbn [starts_break]. rewrite <- append_cons.
  by rewrite space_width_app_r by (done || by apply all_space_clean).
Qed.

Lemma tokens_app_spaces k x b :
  all_space b = true → (k ≤ String.length x)%nat →
  tokens k (x +:+ b) = tokens k x.
Proof.
  intros Hb. revert k. induction x as [|c x IH]; intros k Hk.
  - cbn in Hk. replace k with 0%nat by lia. by apply split_nil.
  - rewrite append_cons. cbn [tokens]. destruct k as [|k]; [|apply IH; cbn in Hk; lia].
    rewrite <- append_cons, space_width_app_r by (done || by apply all_space_clean).
    destruct (space_width (String c x)) as [|k] eqn:E.
    + rewrite starts_break_app by done. rewrite IH by lia. done.
    + apply IH. pose proof (space_width_le (String c x)) as Hle. rewrite E in Hle.
      cbn in Hle. lia.
Qed.

Lemma split_rstrip s : split (rstrip s) = split s.
Proof.
  destruct (rstrip_spec s) as (b & Hs & Hb).
  rewrite Hs at 2. unfold split. by rewrite tokens_app_spaces by (done || lia).
Qed.

Lemma split_strip s : split (strip s) = split s.
Proof. unfold strip. by rewrite split_lstrip, split_rstrip. Qed.

Lemma split_token_app t s :
  t ≠ EmptyString → space_free t = true →
  split (t +:+ String " " s) = t :: split s.
Proof.
  unfold split.
  induction t as [|c t IH]; [done|]. intros _ Hsf.
  pose proof (space_free_width _ Hsf) as Hc. apply space_free_tail in Hsf as Ht.
  rewrite append_cons. cbn [tokens].
  rewrite <- append_cons, space_width_app_r, Hc by done.
  destruct t as [|c' t'].
  - done.
  - rewrite IH by done.
    assert (starts_break (String c' t' +:+ String " " s) = false) as ->; [|done].
    rewrite append_cons. cbn [starts_break]. rewrite <- append_cons.
    rewrite space_width_app_r by done.
    by rewrite (space_free_width _ Ht).
Qed.

Lemma split_token t :
  t ≠ EmptyString → space_free t = true → split t = [t].
Proof.
  unfold split.
  induction t as [|c t IH]; [done|]. intros _ Hsf.
  pose proof (space_free_width _ Hsf) as Hc. apply space_free_tail in Hsf as Ht.
  cbn [tokens]. rewrite Hc.
  destruct t as [|c' t']; [done|]. rewrite IH by done.
  cbn [starts_break]. by rewrite (space_free_width _ Ht).
Qed.

Lemma split_join ts :
  Forall (λ t, t ≠ EmptyString) ts → Forall (λ t, space_free t = true) ts →
  split (String.concat " " ts) = ts.
Proof.
  induction ts as [|t ts IH]; [done|].
  intros Hne Hsf. inversion Hne; inversion Hsf; subst.
  destruct ts as [|t' ts'].
  - simpl. by apply split_token.
  - change (String.concat " " (t :: t' :: ts'))
      with (t +:+ String " " (String.concat " " (t' :: ts'))).
    rewrite split_token_app by done. by rewrite IH.
Qed.

End TokenFacts.

(** ** The parser *)

Module ParseFacts.
Import CommandRouter PyStr PyStrFacts ParserFacts TokenFacts.

(** [parse_command] looks at the text through its tokens only. *)
Lemma parse_command_ext `{!Runtime} t1 t2 :
  (remove_leading_slash (strip t1) = EmptyString ↔
   remove_leading_slash (strip t2) = EmptyString) →
  split (remove_leading_slash (strip t1)) = split (remove_leading_slash (strip t2)) →
  parse_command t1 = parse_command t2.
Proof.
  intros He Hs. unfold parse_command. rewrite Hs.
  destruct (decide (remove_leading_slash (strip t1) = EmptyString)) as [H1|H1].
  - rewrite (bool_decide_eq_true_2 _ H1).
    by rewrite (bool_decide_eq_true_2 _ (proj1 He H1)).
  - rewrite (bool_decide_eq_false_2 _ H1).
    by rewrite (bool_decide_eq_false_2 _ (λ H2, H1 (proj2 He H2))).
Qed.

Lemma generic_args_lookup_other i rest args k :
  (∀ j : nat, k ≠ "arg" +:+ pretty j) →
  generic_args i rest args !! k = args !! k.
Proof.
  intros Hk. revert i args. induction rest as [|p rest IH]; intros i args; [done|].
  cbn [generic_args]. rewrite IH. by rewrite lookup_insert_ne.
Qed.

Lemma arg_key_inj (i j : nat) : "arg" +:+ pretty i = "arg" +:+ pretty j → i = j.
Proof. intros H. by apply (inj pretty), (inj (String.app "arg")). Qed.

Lemma generic_args_lookup i rest args (j : nat) :
  generic_args i rest args !! ("arg" +:+ pretty j) =
    if decide (i ≤ j < i + length rest)%nat then AStr <$> rest !! (j - i)%nat
    else args !! ("arg" +:+ pretty j).
Proof.
  revert i args. induction rest as [|p rest IH]; intros i args; cbn [generic_args].
  - rewrite decide_False; [done|]. simpl. lia.
  - rewrite IH. cbn [length].
    destruct (decide (S i ≤ j < S i + length rest)%nat) as [H|H].
    + rewrite decide_True by lia.
      replace (j - i)%nat with (S (j - S i)) by lia. done.
    + destruct (decide (j = i)) as [->|Hne].
      * rewrite decide_True by lia. rewrite lookup_insert_eq.
        by replace (i - i)%nat with 0%nat by lia.
      * rewrite decide_False by lia. rewrite lookup_insert_ne; [done|].
        intros ?%arg_key_inj. done.
Qed.

Lemma generic_args_nonempty i p rest args : generic_args i (p :: rest) args ≠ ∅.
Proof.
  intros H. apply (f_equal (λ m, m !! ("arg" +:+ pretty i))) in H.
  rewrite generic_args_lookup, lookup_empty in H.
  rewrite decide_True in H by (simpl; lia).
  by replace (i - i)%nat with 0%nat in H by lia.
Qed.

Lemma generic_args_size i rest args :
  (∀ j : nat, (i ≤ j)%nat → args !! ("arg" +:+ pretty j) = None) →
  size (generic_args i rest args) = (size args + length rest)%nat.
Proof.
  revert i args. induction rest as [|p rest IH]; intros i args Hfresh;
    cbn [generic_args length]; [lia|].
  rewrite IH.
  - rewrite map_size_insert_None by (apply Hfresh; lia). lia.
  - intros j Hj. rewrite lookup_insert_ne; [apply Hfresh; lia|].
    intros ?%arg_key_inj. lia.
Qed.

Lemma not_shaped c :
  c ∉ shaped_commands →
  (c ∉ ["run"; "exec"; "run_screen"]) ∧ (c ∉ ["kill"]) ∧ (c ∉ ["ps"; "list"]) ∧
  c ≠ "set_password" ∧ c ≠ "log" ∧ c ≠ "cleanup".
Proof.
  unfold shaped_commands. rewrite !elem_of_cons, !elem_of_nil. tauto.
Qed.

(** The name that [parse_command] returns is empty or the first token in
    lower case. *)
Lemma parse_command_name `{!Runtime} text command args :
  parse_command text = Returns (command, args) →
  command = EmptyString ∨
  ∃ p0 rest,
    split (remove_leading_slash (strip text)) = p0 :: rest ∧ command = lower p0.
Proof.
  unfold parse_command.
  case_bool_decide as Hne; [intros [= <- _]; by left|].
  destruct (tokens_nonempty _ Hne) as (p0 & rest & Hs & _).
  rewrite Hs. cbn. intros Hp. right. exists p0, rest. split; [done|].
  revert Hp. repeat (case_bool_decide; simpl andb; cbn).
  all: repeat match goal with
         | |- context [getitem ?l ?i] => destruct (getitem l i); cbn
         | |- context [int ?x] => destruct (int x) as [?|[]]; cbn
         end.
  all: unfold mret, outcome_ret; try done; by intros [= <- _].
Qed.

Lemma remove_leading_slash_other c s :
  c ≠ "/"%char → remove_leading_slash (String c s) = String c s.
Proof. by destruct c as [[] [] [] [] [] [] [] []]. Qed.

Lemma prefix_slash c s : String.prefix "/" (String c s) = false → c ≠ "/"%char.
Proof. intros H ->. simpl in H. by destruct s. Qed.

Lemma remove_leading_slash_rstrip u :
  String.prefix "/" u = false →
  remove_leading_slash (rstrip u) = rstrip u.
Proof.
  destruct u as [|c u]; [done|]. intros Hc%prefix_slash.
  cbn [rstrip]. destruct (all_space (String c u)); [done|].
  by rewrite remove_leading_slash_other.
Qed.

Lemma space_width_slash text : space_width (String "/" text) = 0%nat.
Proof. by destruct text as [|c2 [|c3 text]]. Qed.

(** The text that [parse_command] splits, when a [/] is put in front. *)
Lemma strip_slash_cons text :
  remove_leading_slash (strip (String "/" text)) = rstrip text.
Proof.
  unfold strip. cbn [rstrip].
  assert (all_space (String "/" text) = false) as ->.
  { unfold all_space. cbn [spaces_from]. by rewrite space_width_slash. }
  by rewrite lstrip_id by apply space_width_slash.
Qed.

Lemma strip_no_slash text :
  String.prefix "/" (lstrip text) = false →
  remove_leading_slash (strip text) = rstrip (lstrip text).
Proof.
  intros H. unfold strip. rewrite lstrip_rstrip_comm.
  by apply remove_leading_slash_rstrip.
Qed.

End ParseFacts.

Import CommandRouter.

(** X1: [parse_command] raises in one case only: the command is
    [set_password], there is a third token, and [int] refuses that token;
    the exception is then the one [int] raised, a [ValueError]. *)
Theorem X1_parse_command_raises_iff `{!PyStr.Runtime} text e :
  (parse_command text = Raises e ↔
   ∃ p0 p1 p2 rest,
     PyStr.split (remove_leading_slash (PyStr.strip text)) = p0 :: p1 :: p2 :: rest ∧
     PyStr.lower p0 = "set_password" ∧
     PyStr.int p2 = Raises e) ∧
  (parse_command text = Raises e → ∃ m, e = ValueError m).
Proof.
  split; [|apply ParserFacts.parse_command_raises]. split.
  - unfold parse_command.
    case_bool_decide as Hne; [done|].
    destruct (ParserFacts.tokens_nonempty _ Hne) as (p0 & rest & Hs & _).
    rewrite Hs. cbn.
    case_bool_decide; [done|].
    destruct rest as [|p1 rest]; [done|].
    repeat (case_bool_decide; simpl andb; try done); cbn.
    2-5: destruct (PyStr.int p1) as [?|e'] eqn:Hi; [done|];
      by apply PyStr.int_raises in Hi as [? ->].
    destruct rest as [|p2 rest]; [simpl in *; lia|]. cbn.
    destruct (PyStr.int p2) eqn:Hi; cbn; [done|].
    intros [= <-]. by exists p0, p1, p2, rest.
  - intros (p0 & p1 & p2 & rest & Hs & Hl & Hi).
    by apply (RouterFacts.route_command_set_password_bad_key init text None p0 p1 p2 rest).
Qed.

(** X2: the command name that [parse_command] returns is in lower case
    (lowering it again changes nothing) and has no space in it. *)
Theorem X2_parse_command_name_normal `{!PyStr.Runtime} text :
  match parse_command text with
  | Returns (command, _) =>
      PyStr.lower command = command ∧ PyStr.space_free command = true
  | Raises _ => True
  end.
Proof.
  destruct (parse_command text) as [[command args]|e] eqn:Hp; [|done].
  destruct (ParseFacts.parse_command_name _ _ _ Hp)
    as [->|(p0 & rest & Hs & ->)].
  - split; [|done]. by rewrite PyStr.lower_ascii.
  - split; [apply PyStr.lower_lower|]. apply PyStr.lower_space_free.
    pose proof (PyStrFacts.split_space_free
                  (remove_leading_slash (PyStr.strip text))) as Hsf.
    rewrite Hs in Hsf. by inversion Hsf.
Qed.

(** X3: an argument bag that [parse_command] returns is never empty and
    never has the key [_context]; so the context that [route_command]
    adds overwrites no parsed argument. *)
Theorem X3_parsed_arguments_kept `{!PyStr.Runtime} text :
  match parse_command text with
  | Returns (_, Some args) =>
      args ≠ ∅ ∧
      args !! "_context" = None ∧
      ∀ context k v,
        args !! k = Some v → add_context (Some args) context !! k = Some v
  | _ => True
  end.
Proof.
  destruct (parse_command text) as [[command [args|]]|e] eqn:Hp; [|done..].
  assert (args ≠ ∅ ∧ args !! "_context" = None) as [Hne Hctx].
  { revert Hp. unfold parse_command.
    case_bool_decide as Hne; [done|].
    destruct (ParserFacts.tokens_nonempty _ Hne) as (p0 & rest & -> & _). cbn.
    case_bool_decide; [done|].
    destruct rest as [|p1 rest]; [done|].
    repeat (case_bool_decide; simpl andb; cbn).
    all: repeat match goal with
           | |- context [getitem ?l ?i] => destruct (getitem l i); cbn
           | |- context [PyStr.int ?x] => destruct (PyStr.int x) as [?|[]]; cbn
           end.
    all: unfold mret, outcome_ret; try done; intros [= _ <-].
    all: try (split; [apply insert_non_empty|done]).
    all: split; [done|]; by apply ParseFacts.generic_args_lookup_other. }
  split; [done|]. split; [done|].
  intros context k v Hk. unfold add_context. cbn.
  destruct context as [c|]; [|done]. destruct (dict_truthy c); [|done].
  rewrite lookup_insert_ne; [done|]. intros <-. congruence.
Qed.

(** X4: spaces around the text, those outside ASCII included, do not
    change the parse. *)
Theorem X4_surrounding_space_ignored `{!PyStr.Runtime} a text b :
  PyStr.all_space a = true → PyStr.all_space b = true →
  parse_command (a +:+ text +:+ b) = parse_command text.
Proof.
  intros Ha Hb. unfold parse_command.
  by rewrite TokenFacts.strip_surrounded.
Qed.

Lemma X4_surrounding_space_ignored_witness :
  parse_command (AdapterSamples.blank +:+ "/run ls" +:+ AdapterSamples.blank)
  = parse_command "/run ls".
Proof.
  exact (X4_surrounding_space_ignored AdapterSamples.blank "/run ls"
           AdapterSamples.blank eq_refl eq_refl).
Defined.

(** X5: the leading [/] is optional: a text that does not begin, after
    its leading spaces, with a [/] parses the same with a [/] put in
    front. *)
Theorem X5_marker_optional `{!PyStr.Runtime} text :
  String.prefix "/" (PyStr.lstrip text) = false →
  parse_command (String "/" text) = parse_command text.
Proof.
  intros Hpre. apply ParseFacts.parse_command_ext.
  - rewrite ParseFacts.strip_slash_cons, ParseFacts.strip_no_slash by done.
    by rewrite !PyStrFacts.rstrip_empty, TokenFacts.all_space_lstrip.
  - rewrite ParseFacts.strip_slash_cons, ParseFacts.strip_no_slash by done.
    by rewrite !TokenFacts.split_rstrip, TokenFacts.split_lstrip.
Qed.

Lemma X5_marker_optional_witness :
  parse_command "/run ls" = parse_command "run ls".
Proof. exact (X5_marker_optional "run ls" eq_refl). Defined.

(** X6: for a command outside the table of shapes, followed by [n]
    tokens, the arguments are exactly [arg1], ..., [argn], each bound to
    the token at that position. *)
Theorem X6_generic_arguments `{!PyStr.Runtime} text p0 p1 rest :
  PyStr.split (remove_leading_slash (PyStr.strip text)) = p0 :: p1 :: rest →
  PyStr.lower p0 ∉ shaped_commands →
  ∃ args,
    parse_command text = Returns (PyStr.lower p0, Some args) ∧
    size args = length (p1 :: rest) ∧
    ∀ j : nat,
      args !! ("arg" +:+ pretty j) =
        if decide (1 ≤ j ≤ length (p1 :: rest))%nat
        then AStr <$> (p1 :: rest) !! (j - 1)%nat
        else None.
Proof.
  intros Hs Hout. exists (generic_args 1 (p1 :: rest) ∅). split; [|split].
  - unfold parse_command.
    case_bool_decide as Hne; [by rewrite Hne in Hs|].
    rewrite Hs. cbn [getitem lookup list_lookup mbind outcome_bind length drop].
    destruct (ParseFacts.not_shaped _ Hout) as (H1 & H2 & H3 & H4 & H5 & H6).
    rewrite bool_decide_eq_false_2 by done.
    rewrite (bool_decide_eq_false_2 _ H1), (bool_decide_eq_false_2 _ H2),
      (bool_decide_eq_false_2 _ H3), (bool_decide_eq_false_2 _ H4),
      (bool_decide_eq_false_2 _ H5), (bool_decide_eq_false_2 _ H6).
    cbn [andb].
    by rewrite bool_decide_eq_false_2 by apply ParseFacts.generic_args_nonempty.
  - rewrite ParseFacts.generic_args_size by (intros; apply lookup_empty).
    by rewrite map_size_empty.
  - intros j. rewrite ParseFacts.generic_args_lookup, lookup_empty.
    destruct (decide (1 ≤ j < 1 + length (p1 :: rest))%nat);
      [rewrite decide_True by lia|rewrite decide_False by lia]; done.
Qed.

Lemma X6_generic_arguments_witness :
  ∃ args,
    parse_command "/echo a b" = Returns ("echo", Some args) ∧
    size args = 2%nat ∧
    args !! "arg1" = Some (AStr "a") ∧ args !! "arg2" = Some (AStr "b").
Proof.
  assert (PyStr.lower "echo" ∉ shaped_commands) as Hout
    by (apply (bool_decide_eq_false_1 _); vm_compute; reflexivity).
  destruct (X6_generic_arguments "/echo a b" "echo" "a" ["b"] eq_refl Hout)
    as (args & Hp & Hsz & Hl).
  exists args. split; [exact Hp|]. split; [exact Hsz|].
  split; [exact (Hl 1%nat)|exact (Hl 2%nat)].
Defined.

(** X7: for [run], [exec] and [run_screen] the single argument is the
    tokens after the name joined by single blanks; splitting it gives
    those tokens back, so nothing but the spacing of the text is lost. *)
Theorem X7_run_family_argument `{!PyStr.Runtime} text p0 p1 rest :
  PyStr.split (remove_leading_slash (PyStr.strip text)) = p0 :: p1 :: rest →
  PyStr.lower p0 ∈ ["run"; "exec"; "run_screen"] →
  parse_command text =
    Returns (PyStr.lower p0,
             Some {["command" := AStr (PyStr.join " " (p1 :: rest))]}) ∧
  PyStr.split (PyStr.join " " (p1 :: rest)) = p1 :: rest.
Proof.
  intros Hs Hin. split.
  - by apply RouterFacts.parse_command_run.
  - pose proof (PyStrFacts.split_nonempty
                  (remove_leading_slash (PyStr.strip text))) as Hne.
    pose proof (PyStrFacts.split_space_free
                  (remove_leading_slash (PyStr.strip text))) as Hsf.
    rewrite Hs in Hne, Hsf. inversion Hne; inversion Hsf; subst.
    by apply TokenFacts.split_join.
Qed.

Lemma X7_run_family_argument_witness :
  parse_command "/run  echo   a    b" =
    Returns ("run", Some {["command" := AStr "echo a b"]}) ∧
  PyStr.split "echo a b" = ["echo"; "a"; "b"].
Proof.
  exact (X7_run_family_argument "/run  echo   a    b" "run" "echo" ["a"; "b"]
           eq_refl (list_elem_of_here _ _)).
Defined.

(** ** The registry, further *)

Module RegistryMore.
Import CommandRouter CommandRouterViews RegistryFacts.

Lemma router_eq (r1 r2 : t) :
  handlers r1 = handlers r2 → command_map r1 = command_map r2 → r1 = r2.
Proof. destruct r1, r2; simpl; by intros -> ->. Qed.

End RegistryMore.

Import CommandRouter CommandRouterViews.

(** X8: registering the same handler a second time changes nothing. *)
Theorem X8_register_idempotent h self :
  register_handler h (register_handler h self) = register_handler h self.
Proof.
  apply RegistryMore.router_eq.
  - unfold register_handler; simpl. apply insert_insert_eq.
  - apply map_eq. intros c.
    rewrite !RegistryFacts.lookup_register_command. by case_decide.
Qed.

(** X9: in a registry reached by registrations and unregistrations,
    registering a handler whose name is new and whose commands are all
    unmapped, and unregistering it again, gives the registry back. *)
Theorem X9_register_unregister_round_trip ops h :
  handlers (run_ops ops) !! name h = None →
  Forall (λ c, command_map (run_ops ops) !! c = None) (get_supported_commands h) →
  unregister_handler (name h) (register_handler h (run_ops ops))
    = (true, run_ops ops).
Proof.
  intros Hnew Hfree.
  pose proof (RegistryFacts.consistent_run_ops ops) as Hc.
  rewrite (surjective_pairing (unregister_handler _ _)). f_equal.
  - rewrite RegistryFacts.unregister_handler_found.
    apply bool_decide_eq_true_2. rewrite RegistryFacts.lookup_register_handler. eauto.
  - apply RegistryMore.router_eq.
    + apply map_eq. intros n. rewrite RegistryFacts.lookup_unregister_handler.
      case_decide as Hn; [by subst|].
      unfold register_handler; simpl. by rewrite lookup_insert_ne.
    + apply map_eq. intros c.
      rewrite RegistryFacts.lookup_unregister_command
        by (rewrite RegistryFacts.lookup_register_handler; eauto).
      rewrite RegistryFacts.lookup_register_command.
      destruct (decide (c ∈ get_supported_commands h)) as [Hin|Hin].
      * rewrite decide_True by done. symmetry.
        by apply (proj1 (Forall_forall _ _) Hfree).
      * case_decide as Hm; [|done].
        apply Hc in Hm as [? Hm]. congruence.
Qed.

Lemma X9_register_unregister_round_trip_witness :
  unregister_handler "screen"
    (register_handler Samples.screen (run_ops [Register Samples.system]))
  = (true, run_ops [Register Samples.system]).
Proof.
  apply (X9_register_unregister_round_trip [Register Samples.system] Samples.screen).
  - reflexivity.
  - repeat constructor.
Defined.

(** X10: in a registry reached by registrations and unregistrations, the
    handler found under a name has that name, and the owner that
    [command_map] gives for a command is a registered handler of that
    name. *)
Theorem X10_handlers_keyed_by_name ops :
  (∀ n h, handlers (run_ops ops) !! n = Some h → name h = n) ∧
  (∀ c n, command_map (run_ops ops) !! c = Some n →
          ∃ h, handlers (run_ops ops) !! n = Some h ∧ name h = n).
Proof.
  assert (∀ n h, handlers (run_ops ops) !! n = Some h → name h = n) as Hk.
  { unfold run_ops.
    assert (∀ n h, handlers init !! n = Some h → name h = n) as Hinit
      by (intros n h; cbn; by rewrite lookup_empty).
    revert Hinit. generalize init.
    induction ops as [|o ops IH]; intros self Hk; simpl; [done|].
    apply IH. destruct o as [h|n]; simpl.
    - intros n' h'. unfold register_handler; simpl.
      destruct (decide (name h = n')) as [<-|Hne].
      + rewrite lookup_insert_eq. by intros [= <-].
      + rewrite lookup_insert_ne by done. apply Hk.
    - intros n' h'. rewrite RegistryFacts.lookup_unregister_handler.
      case_decide; [done|]. apply Hk. }
  split; [done|]. intros c n Hc.
  destruct (RegistryFacts.consistent_run_ops ops _ _ Hc) as [h Hh]. eauto.
Qed.

(** X11: registering a handler never unmaps a command: when a handler is
    replaced by another of the same name, a command that only the first
    one declared stays mapped to the name, and is routed to the second. *)
Theorem X11_replaced_handler_inherits `{!PyStr.Runtime}
    h1 h2 self c text context args :
  name h1 = name h2 →
  c ∈ get_supported_commands h1 →
  parse_command text = Returns (c, args) →
  c ≠ EmptyString →
  route_command (register_handler h2 (register_handler h1 self)) text context =
    (except_Exception (handle h2 c (add_context args context)),
     [{| callee := name h2; call_command := c;
         call_args := add_context args context |}]).
Proof.
  intros Hn Hin Hp Hne.
  rewrite (RouterFacts.route_command_parsed _ _ _ _ _ Hp Hne).
  rewrite !RegistryFacts.lookup_register_command.
  assert ((if decide (c ∈ get_supported_commands h2) then Some (name h2)
           else if decide (c ∈ get_supported_commands h1) then Some (name h1)
                else command_map self !! c) = Some (name h2)) as ->.
  { case_decide; [done|]. rewrite decide_True by done. by rewrite Hn. }
  by rewrite RegistryFacts.lookup_register_handler.
Qed.

Lemma X11_replaced_handler_inherits_witness :
  route_command
    (register_handler
       {| name := "shell"; get_supported_commands := ["exec"];
          handle := λ _ _, Returns (Samples.ok_response "shell" "second") |}
       (register_handler Samples.shell init))
    "/ps" None =
  (Returns (Samples.ok_response "shell" "second"),
   [{| callee := "shell"; call_command := "ps"; call_args := ∅ |}]).
Proof.
  exact (X11_replaced_handler_inherits Samples.shell
           {| name := "shell"; get_supported_commands := ["exec"];
              handle := λ _ _, Returns (Samples.ok_response "shell" "second") |}
           init "ps" "/ps" None None eq_refl
           (list_elem_of_further _ _ _ (list_elem_of_here _ _))
           eq_refl ltac:(discriminate)).
Defined.

(** X12: registering a handler leaves every command it does not declare
    and every other handler as they were; unregistering a handler leaves
    every command mapped to another name and every other handler as they
    were. *)
Theorem X12_registry_frame self h n :
  (∀ c, c ∉ get_supported_commands h →
        command_map (register_handler h self) !! c = command_map self !! c) ∧
  (∀ m, m ≠ name h →
        handlers (register_handler h self) !! m = handlers self !! m) ∧
  (∀ c, command_map self !! c ≠ Some n →
        command_map (unregister_handler n self).2 !! c = command_map self !! c) ∧
  (∀ m, m ≠ n →
        handlers (unregister_handler n self).2 !! m = handlers self !! m).
Proof.
  split; [|split; [|split]].
  - intros c Hc. rewrite RegistryFacts.lookup_register_command.
    by rewrite decide_False.
  - intros m Hm. unfold register_handler; simpl. by rewrite lookup_insert_ne.
  - intros c Hc. destruct (handlers self !! n) as [h'|] eqn:Hn.
    + rewrite RegistryFacts.lookup_unregister_command by eauto.
      by rewrite decide_False.
    + unfold unregister_handler. by rewrite Hn.
  - intros m Hm. rewrite RegistryFacts.lookup_unregister_handler.
    by rewrite decide_False.
Qed.

(** X13: [get_available_commands] lists the mapped commands, each once,
    in increasing order. *)
Theorem X13_available_commands self :
  StronglySorted (≤)%string (get_available_commands self) ∧
  NoDup (get_available_commands self) ∧
  ∀ c, c ∈ get_available_commands self ↔ is_Some (command_map self !! c).
Proof.
  unfold get_available_commands. split; [|split].
  - apply StronglySorted_merge_sort; apply _.
  - rewrite merge_sort_Permutation. apply NoDup_fst_map_to_list.
  - intros c. rewrite merge_sort_Permutation, list_elem_of_fmap. split.
    + intros ([c' hn] & -> & Hin%elem_of_map_to_list). eauto.
    + intros [hn Hc]. exists (c, hn). split; [done|]. by apply elem_of_map_to_list.
Qed.

(** X14: [route_command] invokes at most one handler; the one it invokes
    is registered and is the owner that [command_map] gives for the
    command, and the command it is handed is not empty and in lower case. *)
Theorem X14_route_invokes_owner `{!PyStr.Runtime} self text context c :
  c ∈ (route_command self text context).2 →
  (route_command self text context).2 = [c] ∧
  command_map self !! call_command c = Some (callee c) ∧
  is_Some (handlers self !! callee c) ∧
  call_command c ≠ EmptyString ∧
  PyStr.lower (call_command c) = call_command c.
Proof.
  unfold route_command, route_try.
  destruct (parse_command text) as [[command args]|e] eqn:Hp;
    [|by intros ?%elem_of_nil].
  case_bool_decide as Hne; [by intros ?%elem_of_nil|].
  destruct (command_map self !! command) as [hn|] eqn:Hm;
    [|by intros ?%elem_of_nil].
  destruct (handlers self !! hn) as [h|] eqn:Hh; [|by intros ?%elem_of_nil].
  simpl. intros ->%list_elem_of_singleton. simpl. rewrite Hh.
  destruct (ParseFacts.parse_command_name _ _ _ Hp)
    as [->|(p0 & rest & _ & ->)]; [done|].
  rewrite PyStr.lower_lower. eauto 10.
Qed.

Lemma X14_route_invokes_owner_witness :
  (route_command (register_handler Samples.shell init) "/RUN ls" None).2 =
    [{| callee := "shell"; call_command := "run";
        call_args := {["command" := AStr "ls"]} |}].
Proof.
  exact (proj1 (X14_route_invokes_owner (register_handler Samples.shell init)
                  "/RUN ls" None
                  {| callee := "shell"; call_command := "run";
                     call_args := {["command" := AStr "ls"]} |}
                  (list_elem_of_here _ _))).
Defined.

(** ** The adapter, further *)

(** X15: a message that is not authorized is answered with the one text
    "Unauthorized access." and nothing else happens: the message handler
    is not called. *)
Theorem X15_unauthorized_is_refused {PM} `{!BaseAdapter.t PM} `{!PyStr.Runtime}
    message_handler (platform_message : PM) (w : world) :
  BaseAdapter.is_authorized (BaseAdapter.extract_message_info platform_message) = false →
  BaseAdapter.handle_platform_message message_handler platform_message w =
    (Returns (),
     add_event
       (send_text "Unauthorized access."
          (BaseAdapter.extract_message_info platform_message)) w).
Proof.
  intros Ha. rewrite AdapterFacts.handle_platform_message_run. cbn zeta.
  by rewrite Ha.
Qed.

Lemma X15_unauthorized_is_refused_witness :
  trace (TelegramAdapter._handle_text_message AdapterSamples.operator
           (MoreSamples.update_from 7 "run ls" 2000) (AdapterSamples.host [])).2 =
    [send_text "Unauthorized access."
       (TelegramAdapter.extract_message_info AdapterSamples.operator
          (MoreSamples.update_from 7 "run ls" 2000))].
Proof.
  exact (f_equal (λ r, trace r.2)
           (@X15_unauthorized_is_refused _
              (TelegramAdapter.adapter AdapterSamples.operator) _
              (TelegramAdapter.message_handler AdapterSamples.operator)
              (MoreSamples.update_from 7 "run ls" 2000) (AdapterSamples.host [])
              eq_refl)).
Defined.

(** X16: when the message handler raises an exception that is an
    instance of [Exception], [handle_platform_message] still returns: the
    handler was called once, and one text "Error processing message: "
    with the exception's message is sent. *)
Theorem X16_handler_exception_reported {PM} `{!BaseAdapter.t PM} `{!PyStr.Runtime}
    h (platform_message : PM) (w : world) e :
  BaseAdapter.is_authorized (BaseAdapter.extract_message_info platform_message) = true →
  PyStr.strip (default EmptyString
                 (text (BaseAdapter.extract_message_info platform_message)))
    ≠ EmptyString →
  h (PyStr.strip (default EmptyString
                    (text (BaseAdapter.extract_message_info platform_message))))
    (BaseAdapter.extract_message_info platform_message) = Raises e →
  is_Exception e = true →
  BaseAdapter.handle_platform_message (Some h) platform_message w =
    (Returns (),
     add_event
       (send_text ("Error processing message: " +:+ exn_str e)
          (BaseAdapter.extract_message_info platform_message))
       (add_event
          (handler_call
             (PyStr.strip (default EmptyString
                (text (BaseAdapter.extract_message_info platform_message))))
             (BaseAdapter.extract_message_info platform_message))
          w)).
Proof.
  intros Ha Ht Hh He. rewrite AdapterFacts.handle_platform_message_run. cbn zeta.
  rewrite Ha. cbn [negb]. rewrite bool_decide_eq_false_2 by done.
  by rewrite Hh, He.
Qed.

Lemma X16_handler_exception_reported_witness :
  trace (TelegramAdapter._handle_text_message MoreSamples.fragile
           (MoreSamples.update_from 42 "run ls" 2000) (AdapterSamples.host [])).2 =
    [handler_call "run ls"
       (TelegramAdapter.extract_message_info MoreSamples.fragile
          (MoreSamples.update_from 42 "run ls" 2000));
     send_text "Error processing message: boom"
       (TelegramAdapter.extract_message_info MoreSamples.fragile
          (MoreSamples.update_from 42 "run ls" 2000))].
Proof.
  exact (f_equal (λ r, trace r.2)
           (@X16_handler_exception_reported _
              (TelegramAdapter.adapter MoreSamples.fragile) _
              MoreSamples.failing
              (MoreSamples.update_from 42 "run ls" 2000) (AdapterSamples.host [])
              (RuntimeError "boom")
              eq_refl ltac:(vm_compute; discriminate) eq_refl eq_refl)).
Defined.

(** X17: an exception leaves [handle_platform_message] only when it is
    outside [Exception], and then it is the one the message handler
    raised. *)
Theorem X17_only_exits_escape {PM} `{!BaseAdapter.t PM} `{!PyStr.Runtime}
    message_handler (platform_message : PM) (w : world) e :
  (BaseAdapter.handle_platform_message message_handler platform_message w).1
    = Raises e →
  is_Exception e = false ∧
  ∃ h, message_handler = Some h ∧
       h (PyStr.strip (default EmptyString
                         (text (BaseAdapter.extract_message_info platform_message))))
         (BaseAdapter.extract_message_info platform_message) = Raises e.
Proof.
  rewrite AdapterFacts.handle_platform_message_run. cbn zeta.
  destruct (BaseAdapter.is_authorized _); cbn [negb]; [|done].
  case_bool_decide; [done|].
  destruct message_handler as [h|]; [|done].
  destruct (h _ _) as [r|e'] eqn:Hh.
  - destruct (AdapterFacts.handle_response_extends r
                (BaseAdapter.extract_message_info platform_message)
                (add_event
                   (handler_call
                      (PyStr.strip (default EmptyString
                         (text (BaseAdapter.extract_message_info platform_message))))
                      (BaseAdapter.extract_message_info platform_message)) w))
      as (w' & rest & -> & _). done.
  - destruct (is_Exception e') eqn:He; [done|].
    intros [= <-]. split; [done|]. by exists h.
Qed.

Lemma X17_only_exits_escape_witness :
  is_Exception (SystemExit 0) = false.
Proof.
  exact (proj1
    (@X17_only_exits_escape _
       (TelegramAdapter.adapter AdapterSamples.operator) _
       (Some (router_handler
                (CommandRouter.register_handler Samples.system CommandRouter.init)))
       (AdapterSamples.update_at "/kill" 2000) (AdapterSamples.host [])
       (SystemExit 0) eq_refl)).
Defined.

(** X18: with the router as message handler, an authorized text whose
    command nobody owns is answered by the one text "Unknown command: "
    and the name: no image is sent and no file is touched. *)
Theorem X18_unknown_command_answered {PM} `{!BaseAdapter.t PM} `{!PyStr.Runtime}
    r (platform_message : PM) (w : world) command args :
  BaseAdapter.is_authorized (BaseAdapter.extract_message_info platform_message) = true →
  CommandRouter.parse_command
    (PyStr.strip (default EmptyString
                    (text (BaseAdapter.extract_message_info platform_message))))
    = Returns (command, args) →
  command ≠ EmptyString →
  CommandRouter.command_map r !! command = None →
  BaseAdapter.handle_platform_message (Some (router_handler r)) platform_message w =
    (Returns (),
     add_event
       (send_text ("Unknown command: " +:+ command)
          (BaseAdapter.extract_message_info platform_message))
       (add_event
          (handler_call
             (PyStr.strip (default EmptyString
                (text (BaseAdapter.extract_message_info platform_message))))
             (BaseAdapter.extract_message_info platform_message))
          w)).
Proof.
  intros Ha Hp Hne Hm. rewrite AdapterFacts.handle_platform_message_run. cbn zeta.
  rewrite Ha. cbn [negb].
  assert (PyStr.strip (default EmptyString
            (text (BaseAdapter.extract_message_info platform_message)))
          ≠ EmptyString) as Hbody.
  { intros Hb. rewrite Hb in Hp.
    change (CommandRouter.parse_command EmptyString)
      with (Returns (A := string * option (gmap string argval)) (EmptyString, None))
      in Hp.
    congruence. }
  rewrite bool_decide_eq_false_2 by done.
  unfold router_handler.
  rewrite (RouterFacts.route_command_parsed _ _ _ _ _ Hp Hne), Hm. cbn [fst].
  rewrite AdapterFacts.handle_response_run. cbn. by rewrite lookup_empty.
Qed.

Lemma X18_unknown_command_answered_witness :
  trace (TelegramAdapter._handle_text_message AdapterSamples.operator
           (AdapterSamples.update_at "/dance now" 2000) (AdapterSamples.host [])).2 =
    [handler_call "/dance now"
       (TelegramAdapter.extract_message_info AdapterSamples.operator
          (AdapterSamples.update_at "/dance now" 2000));
     send_text "Unknown command: dance"
       (TelegramAdapter.extract_message_info AdapterSamples.operator
          (AdapterSamples.update_at "/dance now" 2000))].
Proof.
  exact (f_equal (λ r, trace r.2)
           (@X18_unknown_command_answered _
              (TelegramAdapter.adapter AdapterSamples.operator) _
              (CommandRouter.register_handler Samples.shell CommandRouter.init)
              (AdapterSamples.update_at "/dance now" 2000) (AdapterSamples.host [])
              "dance" _ eq_refl eq_refl ltac:(discriminate) eq_refl)).
Defined.

(** X19: delivering a response removes no file but the artifact: the
    files afterwards are among those before, and a file that is gone is
    the string under [image_path], has ["/tmp/"] in its path and could be
    deleted. *)
Theorem X19_only_the_artifact_is_removed {PM} `{!BaseAdapter.t PM}
    (resp : response) context w :
  files (BaseAdapter.handle_response resp context w).2 ⊆ files w ∧
  undeletable (BaseAdapter.handle_response resp context w).2 = undeletable w ∧
  ∀ path,
    path ∈ files w →
    path ∉ files (BaseAdapter.handle_response resp context w).2 →
    default ∅ (data resp) !! "image_path" = Some (PStr path) ∧
    PyStr.contains "/tmp/" path = true ∧
    path ∉ undeletable w.
Proof.
  rewrite AdapterFacts.handle_response_run. cbn zeta.
  generalize (default ∅ (data resp) !! "image_path"). intros o.
  assert (∀ w' : world,
            files w' = files w → undeletable w' = undeletable w →
            files w' ⊆ files w ∧ undeletable w' = undeletable w ∧
            ∀ path, path ∈ files w → path ∉ files w' →
              o = Some (PStr path) ∧
              PyStr.contains "/tmp/" path = true ∧ path ∉ undeletable w) as Hsame.
  { intros w' Hf Hu. rewrite Hf. split; [done|]. split; [done|].
    intros path Hin Hout. by destruct Hout. }
  destruct o as [[| | |p]|]; cbn; try by apply (Hsame w).
  destruct (decide (p ∈ files w)) as [Hf|Hf];
    [rewrite (bool_decide_eq_true_2 _ Hf)|rewrite (bool_decide_eq_false_2 _ Hf)];
    cbn; [|by apply (Hsame w)].
  destruct (PyStr.contains "/tmp/" p) eqn:Hc; cbn; [|by apply (Hsame w)].
  destruct (decide (p ∈ undeletable w)) as [Hu|Hu];
    [rewrite (bool_decide_eq_true_2 _ Hu)|rewrite (bool_decide_eq_false_2 _ Hu)];
    cbn; [by apply (Hsame w)|].
  split; [apply subseteq_difference_l; done|]. split; [done|].
  intros path Hin Hout.
  assert (path = p) as ->.
  { destruct (decide (path = p)) as [|Hne]; [done|].
    destruct Hout. apply elem_of_difference. split; [done|].
    by intros ?%elem_of_singleton. }
  done.
Qed.

(** ** The Telegram adapter, further *)

(** X20: an update that has no message or no chat is read as the
    sentinel message with chat id "unknown", an empty text and not
    recent; it is authorized only if the configured principal is the
    string "unknown", and otherwise the text path answers it with
    "Unauthorized access." and does nothing else. *)
Theorem X20_unreadable_update_refused `{!PyStr.Runtime} self update w :
  upd_message update = None ∨ effective_chat update = None →
  TelegramAdapter.extract_message_info self update = unreadable ∧
  (TelegramAdapter.is_authorized self
     (TelegramAdapter.extract_message_info self update) = true ↔
   TelegramAdapter.authorized_chat_id self = "unknown") ∧
  (TelegramAdapter.authorized_chat_id self ≠ "unknown" →
   TelegramAdapter._handle_text_message self update w =
     (Returns (), add_event (send_text "Unauthorized access." unreadable) w)).
Proof.
  intros Hbad.
  assert (TelegramAdapter.extract_message_info self update = unreadable) as He.
  { unfold TelegramAdapter.extract_message_info.
    destruct Hbad as [-> | ->]; [done|]. by destruct (upd_message update). }
  split; [done|]. rewrite He.
  assert (TelegramAdapter.is_authorized self unreadable = true ↔
          TelegramAdapter.authorized_chat_id self = "unknown") as Hiff.
  { unfold TelegramAdapter.is_authorized. cbn. rewrite bool_decide_eq_true.
    split; congruence. }
  split; [done|]. intros Hne.
  unfold TelegramAdapter._handle_text_message.
  rewrite AdapterFacts.handle_platform_message_run. cbn zeta.
  change (BaseAdapter.extract_message_info update)
    with (TelegramAdapter.extract_message_info self update).
  change (BaseAdapter.is_authorized (TelegramAdapter.extract_message_info self update))
    with (TelegramAdapter.is_authorized self
            (TelegramAdapter.extract_message_info self update)).
  rewrite He.
  destruct (TelegramAdapter.is_authorized self unreadable) eqn:Ha; [|done].
  destruct Hne. by apply Hiff.
Qed.

Lemma X20_unreadable_update_refused_witness :
  TelegramAdapter._handle_text_message AdapterSamples.operator
    MoreSamples.no_message (AdapterSamples.host []) =
  (Returns (),
   add_event (send_text "Unauthorized access." unreadable) (AdapterSamples.host [])).
Proof.
  exact (proj2 (proj2 (X20_unreadable_update_refused AdapterSamples.operator
                         MoreSamples.no_message (AdapterSamples.host [])
                         (or_introl eq_refl)))
           ltac:(discriminate)).
Defined.





(** X23: on the command path, a message sent before the start gets one
    reply and nothing else: "Ignoring old message (sent before bot
    started)." from the authorized chat, "Unauthorized." from another; the
    message handler is not called. *)
Theorem X23_stale_command_rejected `{!PyStr.Runtime} self update m w :
  upd_message update = Some m →
  tg_date m < TelegramAdapter.bot_start_time self →
  TelegramAdapter._handle_command_message self update w =
    (Returns (),
     add_event
       (reply_text
          (if TelegramAdapter.is_authorized self
                (TelegramAdapter.extract_message_info self update)
           then "Ignoring old message (sent before bot started)."
           else "Unauthorized."))
       w).
Proof.
  intros Hm Hd. unfold TelegramAdapter._handle_command_message, TelegramAdapter.reply.
  rewrite Hm.
  destruct (TelegramAdapter.is_authorized _ _); cbn [negb]; [|done].
  unfold TelegramAdapter.extract_message_info. rewrite Hm.
  destruct (effective_chat update); [|done]. cbn.
  unfold TelegramAdapter._is_message_recent.
  by rewrite bool_decide_eq_false_2 by lia.
Qed.

Lemma X23_stale_command_rejected_witness :
  TelegramAdapter._handle_command_message AdapterSamples.operator
    (AdapterSamples.update_at "/run ls" 999) (AdapterSamples.host []) =
  (Returns (),
   add_event (reply_text "Ignoring old message (sent before bot started).")
     (AdapterSamples.host [])).
Proof.
  exact (X23_stale_command_rejected AdapterSamples.operator
           (AdapterSamples.update_at "/run ls" 999) _ (AdapterSamples.host [])
           eq_refl eq_refl).
Defined.

(** ** The security manager *)

Module SecurityFacts.
Import SecurityManager.

Lemma hex_digit_facts (i : nat) :
  (i < 16)%nat →
  Ascii.is_space (PyStr.hex_digit (N.of_nat i)) = false ∧
  hex_val (PyStr.hex_digit (N.of_nat i)) = Some (Z.of_nat i).
Proof.
  intros Hi. do 16 (destruct i as [|i]; [by vm_compute|]). lia.
Qed.

Lemma fromhex_hex_byte b s :
  is_byte b = true → fromhex (hex_byte b +:+ s) = cons b <$> fromhex s.
Proof.
  intros [Hl Hh]%andb_true_iff. apply Z.leb_le in Hl. apply Z.ltb_lt in Hh.
  unfold hex_byte.
  assert (0 ≤ b / 16 < 16) as Hq by (split; [apply Z.div_pos|apply Z.div_lt_upper_bound]; lia).
  assert (0 ≤ b mod 16 < 16) as Hr by (apply Z.mod_pos_bound; lia).
  destruct (hex_digit_facts (Z.to_nat (b / 16))) as [Hs1 Hv1]; [lia|].
  destruct (hex_digit_facts (Z.to_nat (b mod 16))) as [_ Hv2]; [lia|].
  rewrite Z_nat_N in Hs1, Hv1, Hv2. rewrite Z2Nat.id in Hv1, Hv2 by lia.
  change (String ?a (String ?c EmptyString) +:+ s) with (String a (String c s)).
  cbn [fromhex]. rewrite Hs1, Hv1, Hv2.
  replace (b / 16 * 16 + b mod 16) with b; [done|].
  rewrite (Z.div_mod b 16) at 1 by lia. lia.
Qed.

Lemma fromhex_bytes_hex bs :
  forallb is_byte bs = true → fromhex (bytes_hex bs) = Some bs.
Proof.
  induction bs as [|b bs IH]; [done|]. cbn [forallb bytes_hex].
  intros [Hb Hbs]%andb_true_iff. rewrite fromhex_hex_byte by done.
  by rewrite IH.
Qed.

Lemma bytes_hex_empty bs : bytes_hex bs = EmptyString ↔ bs = [].
Proof. destruct bs; [done|]. split; [|done]. by cbn. Qed.

Lemma lxor_twice (k : Z) (cs : list Z) :
  (λ b, Z.lxor b k) <$> ((λ c, Z.lxor c k) <$> cs) = cs.
Proof.
  induction cs as [|c cs IH]; [done|]. cbn. rewrite IH. f_equal.
  by rewrite Z.lxor_assoc, Z.lxor_nilpotent, Z.lxor_0_r.
Qed.

Lemma forallb_fmap_Forall {A B} (P : A → Prop) (g : B → bool) (f : A → B) l :
  (∀ c, P c ↔ g (f c) = true) →
  forallb g (f <$> l) = true ↔ Forall P l.
Proof.
  intros Hpg. induction l as [|c l IH]; cbn.
  - split; [constructor|done].
  - rewrite andb_true_iff, IH, Forall_cons, Hpg. done.
Qed.

Lemma is_byte_spec v : 0 ≤ v < 256 ↔ is_byte v = true.
Proof.
  unfold is_byte. rewrite andb_true_iff, Z.leb_le, Z.ltb_lt. done.
Qed.

Lemma is_code_point_spec v : 0 ≤ v < 1114112 ↔ is_code_point v = true.
Proof.
  unfold is_code_point. rewrite andb_true_iff, Z.leb_le, Z.ltb_lt. done.
Qed.

End SecurityFacts.

(** X24: a password that is not empty, whose characters xor the key all
    fit in a byte, is read back by [decode_password] from the [log_key]
    that [encode_password] produced, under the same key. *)
Theorem X24_password_round_trip self password key :
  password ≠ [] →
  Forall (λ c, 0 ≤ c < 1114112) password →
  Forall (λ c, 0 ≤ Z.lxor c (SecurityManager.key_or_default self key) < 256) password →
  SecurityManager.decode_password
    (SecurityManager.with_log_key
       (SecurityManager.encode_password self password key) self) key
  = Some password.
Proof.
  intros Hne Hcp Hb.
  set (k := SecurityManager.key_or_default self key) in *.
  assert (forallb SecurityManager.is_byte ((λ c, Z.lxor c k) <$> password) = true)
    as Hbytes.
  { apply (SecurityFacts.forallb_fmap_Forall (λ c, 0 ≤ Z.lxor c k < 256)); [|done].
    intros c. apply SecurityFacts.is_byte_spec. }
  unfold SecurityManager.encode_password. fold k. rewrite Hbytes.
  unfold SecurityManager.decode_password. cbn [SecurityManager.log_key
    SecurityManager.with_log_key].
  rewrite bool_decide_eq_false_2.
  2: { rewrite SecurityFacts.bytes_hex_empty. by destruct password. }
  assert (SecurityManager.key_or_default
            (SecurityManager.with_log_key
               (SecurityManager.bytes_hex ((λ c, Z.lxor c k) <$> password)) self)
            key = k) as -> by (by destruct key).
  rewrite SecurityFacts.fromhex_bytes_hex by done.
  rewrite SecurityFacts.lxor_twice.
  assert (forallb SecurityManager.is_code_point password = true) as ->; [|done].
  rewrite <- (list_fmap_id password).
  apply (SecurityFacts.forallb_fmap_Forall (λ c, 0 ≤ c < 1114112)); [|done].
  intros c. apply SecurityFacts.is_code_point_spec.
Qed.

Lemma X24_password_round_trip_witness :
  SecurityManager.encode_password (SecurityManager.init EmptyString 42 0)
    [104; 105] None = "4243" ∧
  SecurityManager.decode_password
    (SecurityManager.with_log_key "4243" (SecurityManager.init EmptyString 42 0))
    None = Some [104; 105].
Proof.
  split; [reflexivity|].
  apply (X24_password_round_trip (SecurityManager.init EmptyString 42 0)
           [104; 105] None).
  - discriminate.
  - repeat constructor; vm_compute; discriminate.
  - repeat constructor; vm_compute; discriminate.
Defined.

(** X25: [encode_password] gives the empty string exactly when the
    password is empty or some character xor the key does not fit in a
    byte; a manager set up with that result then has no password. *)
Theorem X25_encode_failure self password key :
  (SecurityManager.encode_password self password key = EmptyString ↔
   password = [] ∨
   ¬ Forall (λ c, 0 ≤ Z.lxor c (SecurityManager.key_or_default self key) < 256)
       password) ∧
  ∀ key',
    SecurityManager.decode_password
      (SecurityManager.with_log_key EmptyString self) key' = None.
Proof.
  split; [|done].
  set (k := SecurityManager.key_or_default self key).
  unfold SecurityManager.encode_password. fold k.
  pose proof (SecurityFacts.forallb_fmap_Forall
                (λ c, 0 ≤ Z.lxor c k < 256) SecurityManager.is_byte
                (λ c, Z.lxor c k) password
                (λ c, SecurityFacts.is_byte_spec (Z.lxor c k))) as Hspec.
  destruct (forallb SecurityManager.is_byte ((λ c, Z.lxor c k) <$> password)) eqn:Hb.
  - rewrite SecurityFacts.bytes_hex_empty. split.
    + intros H. left. by destruct password.
    + intros [->|Hn]; [done|]. destruct Hn. by apply Hspec.
  - split; [|done]. intros _. right. intros HF. apply Hspec in HF. congruence.
Qed.



(** ** The process manager *)

Module ProcessFacts.
Import PyStr.

Lemma len_append (a b : string) : len (a +:+ b) = (len a + len b)%nat.
Proof.
  induction a as [|c a IH]; [done|].
  rewrite PyStrFacts.append_cons. cbn [len]. rewrite IH. lia.
Qed.

Lemma len_take (n : nat) (s : string) : (len (take n s) ≤ n)%nat.
Proof.
  revert n. induction s as [|c s IH]; intros n; [cbn; lia|].
  cbn [take]. destruct (is_cont c) eqn:Ec.
  - cbn [len]. rewrite Ec. apply IH.
  - destruct n as [|n]; [cbn; lia|]. cbn [len]. rewrite Ec.
    pose proof (IH n). lia.
Qed.

(** Cutting a text that is too long takes exactly the characters asked
    for. *)
Lemma len_take_exact (n : nat) (s : string) :
  starts_clean s = true → (n ≤ len s)%nat → len (take n s) = n.
Proof.
  revert n. induction s as [|c s IH]; intros n Hs Hn; [cbn in *; lia|].
  cbn in Hs. apply negb_true_iff in Hs. cbn [take len] in *. rewrite Hs in *.
  destruct n as [|n]; [done|]. cbn [len]. rewrite Hs.
  assert (∀ m t, (m ≤ len t)%nat → len (take m t) = m) as Hgen.
  { clear. intros m t. revert m. induction t as [|c t IH]; intros m Hm;
      [cbn in *; lia|].
    cbn [take len] in *. destruct (is_cont c) eqn:Ec.
    - cbn [len]. rewrite Ec. by apply IH.
    - destruct m as [|m]; [done|]. cbn [len]. rewrite Ec. rewrite IH; lia. }
  rewrite Hgen; lia.
Qed.

Lemma str_or_nonempty a b : b ≠ EmptyString → ProcessManager.str_or a b ≠ EmptyString.
Proof. intros Hb. unfold ProcessManager.str_or. by case_bool_decide. Qed.

End ProcessFacts.

(** X27: when the process completes, [execute_command] reports success
    exactly for the return code [0], and its output is never empty and at
    most 4015 characters long: the trimmed standard output, else the
    trimmed standard error, else "(No output)", as it is when it has at
    most 4000 characters, and otherwise its first 4000 characters with
    "... (truncated)" added. *)
Theorem X27_command_output_bounded `{!PyStr.Runtime}
    run self command timeout returncode stdout stderr :
  run command (ProcessManager.timeout_or_default self timeout)
    = ProcessManager.Completed returncode stdout stderr →
  ∃ output,
    ProcessManager.execute_command run self command timeout
      = Returns (bool_decide (returncode = 0), output) ∧
    output ≠ EmptyString ∧
    (PyStr.len output ≤ 4015)%nat ∧
    output =
      let full := ProcessManager.str_or (PyStr.strip stdout)
                    (ProcessManager.str_or (PyStr.strip stderr) "(No output)") in
      if bool_decide (PyStr.len full ≤ 4000)%nat then full
      else PyStr.take 4000 full +:+ "... (truncated)".
Proof.
  intros Hrun. unfold ProcessManager.execute_command. rewrite Hrun.
  set (full := ProcessManager.str_or (PyStr.strip stdout)
                 (ProcessManager.str_or (PyStr.strip stderr) "(No output)")).
  assert (full ≠ EmptyString) as Hfull
    by (apply ProcessFacts.str_or_nonempty, ProcessFacts.str_or_nonempty; done).
  eexists. split; [reflexivity|]. cbn zeta.
  case_bool_decide as Hlen.
  - rewrite bool_decide_eq_false_2 by lia. split; [|split; [|done]].
    + destruct (PyStr.take 4000 full); done.
    + rewrite ProcessFacts.len_append.
      pose proof (ProcessFacts.len_take 4000 full).
      change (PyStr.len "... (truncated)") with 15%nat. lia.
  - rewrite bool_decide_eq_true_2 by lia. split; [done|]. split; [lia|done].
Qed.

Lemma X27_command_output_bounded_witness :
  ProcessManager.execute_command
    (λ _ _, ProcessManager.Completed 1 "  " " ls: no such file  ")
    ProcessManager.init "ls nowhere" None
  = Returns (false, "ls: no such file").
Proof.
  destruct (X27_command_output_bounded
              (λ _ _, ProcessManager.Completed 1 "  " " ls: no such file  ")
              ProcessManager.init "ls nowhere" None 1 "  " " ls: no such file  "
              eq_refl) as (output & Hrun & _ & _ & Hfull).
  rewrite Hrun. f_equal. f_equal. exact Hfull.
Defined.

(** X28: [list_processes] runs [ps aux], piped through [grep] when a
    filter is given, and answers "Failed to list processes" whenever the
    return code is not [0], whatever was printed; so a filter that matches
    nothing, for which [grep] returns 1, reads as a failure. *)
Theorem X28_list_processes_failure `{!PyStr.Runtime}
    run self filter_term returncode stdout stderr :
  run (match filter_term with
       | Some f => if bool_decide (f = EmptyString) then "ps aux"
                   else "ps aux | grep " +:+ f
       | None => "ps aux"
       end) (ProcessManager.default_timeout self)
    = ProcessManager.Completed returncode stdout stderr →
  returncode ≠ 0 →
  ProcessManager.list_processes run self filter_term
    = Returns "Failed to list processes".
Proof.
  intros Hrun Hrc. unfold ProcessManager.list_processes, ProcessManager.execute_command.
  cbn [ProcessManager.timeout_or_default].
  assert (∀ f, "ps aux" +:+ " | grep " +:+ f = "ps aux | grep " +:+ f) as Hcmd
    by reflexivity.
  destruct filter_term as [f|]; [case_bool_decide|]; rewrite ?Hcmd, Hrun; cbn zeta;
    by rewrite (bool_decide_eq_false_2 _ Hrc).
Qed.

Lemma X28_list_processes_failure_witness :
  ProcessManager.list_processes
    (λ _ _, ProcessManager.Completed 1 EmptyString EmptyString)
    ProcessManager.init (Some "nosuchthing")
  = Returns "Failed to list processes".
Proof.
  exact (X28_list_processes_failure
           (λ _ _, ProcessManager.Completed 1 EmptyString EmptyString)
           ProcessManager.init (Some "nosuchthing") 1 EmptyString EmptyString
           eq_refl ltac:(discriminate)).
Defined.
